(** * AION wallet SDK: wallet module and platform client

    A shallow embedding of [src/index.ts] (wallet module) and of the
    platform client that follows it in the same file, together with the
    properties of the specification that concern them.

    Conventions.
    - A JavaScript string is a [string]: one [ascii] per code unit, so
      [String.length] is the [.length] of the source. Code units above
      255 have no counterpart; the code treats them as it treats any
      character outside the ranges it tests for.
    - A [Uint8Array] is a [list byte].
    - A function that can [throw] returns a [result]; [try ... catch] is
      [try_catch].
    - An [async] method of the client is a function of the client object
      and the network that returns its result, or what it throws, and
      the two as it leaves them. *)

From Stdlib Require Import String Ascii List NArith Arith Bool Lia.
From Stdlib.Strings Require Import Byte.
From Stdlib Require Import DecimalString DecimalN.
Import ListNotations.

Local Open Scope string_scope.
Local Open Scope list_scope.

(** ** Exceptions *)

(** The values the code throws: [new Error(message)] by the SDK and its
    libraries, a [TypeError] by the engine (property read on [null], a
    failed [fetch]) and a [SyntaxError] by [response.json()]. *)
Inductive exn : Type :=
| Error (message : string)
| TypeError
| SyntaxError.

Inductive result (A : Type) : Type :=
| Ok (a : A)
| Throw (e : exn).

Arguments Ok {A} a.
Arguments Throw {A} e.

Definition result_bind {A B} (r : result A) (k : A -> result B) : result B :=
  match r with
  | Ok a => k a
  | Throw e => Throw e
  end.

Definition try_catch {A} (body : result A) (handler : exn -> result A) : result A :=
  match body with
  | Ok a => Ok a
  | Throw e => handler e
  end.

Declare Scope result_scope.
Delimit Scope result_scope with result.
Notation "'let?' x ':=' r 'in' k" := (result_bind r (fun x => k))
  (at level 10, x name, r at level 100, k at level 200) : result_scope.

(** ** Base58 (package bs58)

    The package bs58 is not under src/. It is the base58 of section 4.1
    of the specification (digits 1-9, A-H, J-N, P-Z, a-k, m-z), computed
    the way the package does it (base-x): the leading zero bytes become
    leading ['1'], the rest is converted between base 256 and base 58 by
    repeated multiply-and-add on an array of digits, and the zeros at
    the most significant end of the result are skipped. The work array
    of the package has a fixed size that is never exceeded; here it is a
    list that grows, kept least significant digit first, as the index
    [i] of the inner loops counts from the right end of the array. *)
Module Base58.

Definition ALPHABET : string :=
  "123456789ABCDEFGHJKLMNPQRSTUVWXYZabcdefghijkmnopqrstuvwxyz".

Definition BASE : N := 58.

Definition LEADER : ascii := "1"%char.

Fixpoint index_from (i : N) (alphabet : string) (c : ascii) : N :=
  match alphabet with
  | EmptyString => 255
  | String a rest => if Ascii.eqb a c then i else index_from (i + 1) rest c
  end.

(** [BASE_MAP[c]]: the position of [c] in the alphabet, 255 when absent. *)
Definition BASE_MAP (c : ascii) : N := index_from 0 ALPHABET c.

(** [ALPHABET.charAt(d)] *)
Definition charAt (d : N) : ascii :=
  match String.get (N.to_nat d) ALPHABET with
  | Some c => c
  | None => LEADER
  end.

(** The digits of a carry left over once the numeral is exhausted. *)
Fixpoint spill (base : N) (fuel : nat) (carry : N) : list N :=
  match fuel with
  | O => []
  | S fuel' =>
      if (carry =? 0)%N then []
      else (carry mod base)%N :: spill base fuel' (carry / base)%N
  end.

(** One pass of the inner loop: the numeral [digits] in base [base] is
    multiplied by [mult] and [carry] is added. *)
Fixpoint muladd (base mult : N) (digits : list N) (carry : N) : list N :=
  match digits with
  | [] => spill base (N.to_nat (N.size carry)) carry
  | d :: ds =>
      let c := (carry + mult * d)%N in
      (c mod base)%N :: muladd base mult ds (c / base)%N
  end.

(** Skip the zeros at the most significant end of a numeral given most
    significant digit first. *)
Fixpoint skip_zeros (digits : list N) : list N :=
  match digits with
  | 0%N :: ds => skip_zeros ds
  | _ => digits
  end.

Definition byte_of_digit (d : N) : byte :=
  match Byte.of_N d with
  | Some b => b
  | None => x00
  end.

(** *** encode *)

Fixpoint leading_zero_bytes (source : list byte) : nat * list byte :=
  match source with
  | b :: rest =>
      if (Byte.to_N b =? 0)%N then
        let (zeroes, tail) := leading_zero_bytes rest in (S zeroes, tail)
      else (O, source)
  | [] => (O, source)
  end.

Fixpoint encode_loop (source : list byte) (b58 : list N) : list N :=
  match source with
  | [] => b58
  | b :: rest => encode_loop rest (muladd BASE 256 b58 (Byte.to_N b))
  end.

Fixpoint repeat_leader (n : nat) (tail : string) : string :=
  match n with
  | O => tail
  | S n' => String LEADER (repeat_leader n' tail)
  end.

(** Modelled from the spec: [bs58.encode], of the package bs58, which
    is not under src/; the base58 text of a byte sequence. *)
Definition encode (source : list byte) : string :=
  let (zeroes, rest) := leading_zero_bytes source in
  let b58 := skip_zeros (rev (encode_loop rest [])) in
  repeat_leader zeroes (string_of_list_ascii (map charAt b58)).

(** *** decode *)

Fixpoint leading_leaders (source : string) : nat * string :=
  match source with
  | String c rest =>
      if Ascii.eqb c LEADER then
        let (zeroes, tail) := leading_leaders rest in (S zeroes, tail)
      else (O, source)
  | EmptyString => (O, source)
  end.

Fixpoint decode_loop (source : string) (b256 : list N) : option (list N) :=
  match source with
  | EmptyString => Some b256
  | String c rest =>
      let carry := BASE_MAP c in
      if (carry =? 255)%N then None
      else decode_loop rest (muladd 256 BASE b256 carry)
  end.

(** Modelled from the spec: [decodeUnsafe] of the package bs58, which
    is not under src/; the bytes of a base58 text, nothing when a
    character is not in the alphabet. *)
Definition decodeUnsafe (source : string) : option (list byte) :=
  let (zeroes, rest) := leading_leaders source in
  match decode_loop rest [] with
  | None => None
  | Some b256 =>
      Some (repeat x00 zeroes ++ map byte_of_digit (skip_zeros (rev b256)))
  end.

(** Modelled from the spec: [bs58.decode], which throws where
    [decodeUnsafe] has no result. *)
Definition decode (source : string) : result (list byte) :=
  match decodeUnsafe source with
  | Some buffer => Ok buffer
  | None => Throw (Error "Non-base58 character")
  end.

End Base58.

(** ** Wallet module: address validation *)

(** One character of the class [[1-9A-HJ-NP-Za-km-z]]. *)
Definition base58_class (c : ascii) : bool :=
  let n := N_of_ascii c in
  ((49 <=? n) && (n <=? 57) ||
   (65 <=? n) && (n <=? 72) ||
   (74 <=? n) && (n <=? 78) ||
   (80 <=? n) && (n <=? 90) ||
   (97 <=? n) && (n <=? 107) ||
   (109 <=? n) && (n <=? 122))%N.

Fixpoint all_chars (p : ascii -> bool) (s : string) : bool :=
  match s with
  | EmptyString => true
  | String c rest => p c && all_chars p rest
  end.

(** [/^[1-9A-HJ-NP-Za-km-z]+$/.test(s)] *)
Definition base58Regex_test (s : string) : bool :=
  match s with
  | EmptyString => false
  | _ => all_chars base58_class s
  end.

Definition validateAddress_try (address : string) : result bool :=
  if ((String.length address <? 32) || (44 <? String.length address))%nat then
    Ok false
  else if negb (base58Regex_test address) then
    Ok false
  else
    (let? decoded := Base58.decode address in
     Ok (List.length decoded =? 32)%nat)%result.

Definition validateAddress (address : string) : result bool :=
  try_catch (validateAddress_try address) (fun _ => Ok false).

(** ** Wallet module: key derivation

    The cryptography is done by three packages, bip39, ed25519-hd-key
    and @solana/web3.js, none of them under src/. They are the interface
    the wallet module is written against and are taken as parameters;
    their functions are pure, apart from the random draw of
    [bip39.generateMnemonic], which is made an argument. *)

Record Keys : Type := { key : list byte; chainCode : list byte }.

Module Keypair.
Record t : Type := { publicKey : list byte; secretKey : list byte }.
End Keypair.

Class WalletLibs : Type := {
  (** what [randomBytes] can return *)
  entropy : Type;
  (** [bip39.generateMnemonic(strength)], given the random draw *)
  bip39_generateMnemonic : N -> entropy -> string;
  bip39_validateMnemonic : string -> bool;
  bip39_mnemonicToSeedSync : string -> list byte;
  (** [derivePath(path, seedHex)]; throws on a malformed path *)
  derivePath : string -> string -> result Keys;
  (** [Keypair.fromSeed(seed)]; throws on a seed of the wrong size *)
  Keypair_fromSeed : list byte -> result Keypair.t;
  (** [Keypair.fromSecretKey(secretKey)]; throws on a bad secret key *)
  Keypair_fromSecretKey : list byte -> result Keypair.t
}.

Definition hex_digit (n : N) : ascii :=
  ascii_of_N (if n <? 10 then 48 + n else 87 + n)%N.

(** [buffer.toString('hex')] *)
Fixpoint toString_hex (buffer : list byte) : string :=
  match buffer with
  | [] => EmptyString
  | b :: rest =>
      let n := Byte.to_N b in
      String (hex_digit (n / 16)) (String (hex_digit (n mod 16)) (toString_hex rest))
  end.

(** [publicKey.toBase58()] *)
Definition toBase58 (publicKey : list byte) : string := Base58.encode publicKey.

Module Wallet.
Record t : Type := { publicKey : string; secretKey : list byte; mnemonic : string }.
End Wallet.

Module ImportedWallet.
Record t : Type := { publicKey : string; secretKey : list byte }.
End ImportedWallet.

Section WalletModule.

Context `{libs : WalletLibs}.

Local Open Scope result_scope.

Definition generateWallet (random : entropy) : result Wallet.t :=
  let mnemonic := bip39_generateMnemonic 256 random in
  let seed := bip39_mnemonicToSeedSync mnemonic in
  let derivationPath := "m/44'/501'/0'/0'" in
  let? derived := derivePath derivationPath (toString_hex seed) in
  let? keypair := Keypair_fromSeed (key derived) in
  Ok {| Wallet.publicKey := toBase58 (Keypair.publicKey keypair);
        Wallet.secretKey := Keypair.secretKey keypair;
        Wallet.mnemonic := mnemonic |}.

Definition importFromMnemonic (mnemonic : string) : result ImportedWallet.t :=
  if negb (bip39_validateMnemonic mnemonic) then
    Throw (Error "Invalid mnemonic phrase")
  else
    let seed := bip39_mnemonicToSeedSync mnemonic in
    let derivationPath := "m/44'/501'/0'/0'" in
    let? derived := derivePath derivationPath (toString_hex seed) in
    let? keypair := Keypair_fromSeed (key derived) in
    Ok {| ImportedWallet.publicKey := toBase58 (Keypair.publicKey keypair);
          ImportedWallet.secretKey := Keypair.secretKey keypair |}.

(** The argument of [importFromSecretKey]: [Uint8Array | string]. *)
Inductive secret_key_input : Type :=
| RawBytes (secretKey : list byte)
| Base58String (secretKey : string).

Definition importFromSecretKey (secretKey : secret_key_input)
  : result ImportedWallet.t :=
  let? keypair :=
    match secretKey with
    | Base58String s =>
        let? decoded := Base58.decode s in Keypair_fromSecretKey decoded
    | RawBytes bytes => Keypair_fromSecretKey bytes
    end in
  Ok {| ImportedWallet.publicKey := toBase58 (Keypair.publicKey keypair);
        ImportedWallet.secretKey := Keypair.secretKey keypair |}.

Definition getPublicKey (secretKey : list byte) : result string :=
  let? keypair := Keypair_fromSecretKey secretKey in
  Ok (toBase58 (Keypair.publicKey keypair)).

End WalletModule.

(** ** JavaScript values

    The decoded payload of a response is untyped ([any]) in the source,
    so what the client reads from it and stores is a JavaScript value.
    IEEE doubles are kept abstract: the client only tests them for
    truthiness and prints them. *)
Module JS.

Class Number : Type := {
  number : Type;
  (** [String(n)] *)
  Number_toString : number -> string;
  (** false for [0], [-0] and [NaN] *)
  Number_ToBoolean : number -> bool
}.

Section Values.

Context `{num : Number}.

#[warnings="-register-all"] Inductive value : Type :=
| Undefined
| Null
| Bool (b : bool)
| Num (n : number)
| Str (s : string)
| Arr (elements : list value)
| Obj (properties : list (string * value)).

(** Truthiness: the test of [if (v)], [!v] and [v || w]. *)
Definition ToBoolean (v : value) : bool :=
  match v with
  | Undefined | Null => false
  | Bool b => b
  | Num n => Number_ToBoolean n
  | Str s => negb (String.eqb s "")
  | Arr _ | Obj _ => true
  end.

(** The conversion of a template literal's [${v}]. *)
Fixpoint ToString (v : value) : string :=
  match v with
  | Undefined => "undefined"
  | Null => "null"
  | Bool true => "true"
  | Bool false => "false"
  | Num n => Number_toString n
  | Str s => s
  | Arr elements =>
      String.concat ","
        (map (fun e => match e with
                       | Undefined | Null => ""
                       | _ => ToString e
                       end) elements)
  | Obj _ => "[object Object]"
  end.

(** [a || b] *)
Definition or (a b : value) : value := if ToBoolean a then a else b.

Fixpoint lookup (name : string) (properties : list (string * value)) : value :=
  match properties with
  | [] => Undefined
  | (k, v) :: rest => if String.eqb k name then v else lookup name rest
  end.

(** [v.name], for a name that no prototype defines: a [TypeError] on
    [null] and [undefined], [undefined] on a value without the property. *)
Definition get (v : value) (name : string) : result value :=
  match v with
  | Undefined | Null => Throw TypeError
  | Obj properties => Ok (lookup name properties)
  | _ => Ok Undefined
  end.

(** [object.name = v] on the properties of an object: an existing
    property keeps its place, a new one goes last. *)
Fixpoint set (properties : list (string * value)) (name : string) (v : value)
  : list (string * value) :=
  match properties with
  | [] => [(name, v)]
  | (k, w) :: rest =>
      if String.eqb k name then (k, v) :: rest
      else (k, w) :: set rest name v
  end.

(** An optional argument or property of type [string | undefined]. *)
Definition optional (o : option string) : value :=
  match o with
  | Some s => Str s
  | None => Undefined
  end.

End Values.

End JS.

(** The decimal numeral of an integer number, as [${n}] prints it. *)
Definition decimal (n : N) : string := NilEmpty.string_of_uint (N.to_uint n).

Definition LF : string := String (ascii_of_N 10) EmptyString.

(** [encodeURIComponent(s)]: the unreserved characters stay, every other
    one is replaced by the escapes of its UTF-8 bytes. *)
Module URI.

Definition unreserved (c : ascii) : bool :=
  let n := N_of_ascii c in
  ((65 <=? n) && (n <=? 90) || (97 <=? n) && (n <=? 122) ||
   (48 <=? n) && (n <=? 57) ||
   existsb (N.eqb n) [45; 95; 46; 33; 126; 42; 39; 40; 41])%N.

Definition upper_hex_digit (n : N) : ascii :=
  ascii_of_N (if n <? 10 then 48 + n else 55 + n)%N.

Definition escape (octet : N) (tail : string) : string :=
  String "%" (String (upper_hex_digit (octet / 16))
                     (String (upper_hex_digit (octet mod 16)) tail)).

Fixpoint encodeURIComponent (s : string) : string :=
  match s with
  | EmptyString => EmptyString
  | String c rest =>
      let n := N_of_ascii c in
      if unreserved c then String c (encodeURIComponent rest)
      else if (n <? 128)%N then escape n (encodeURIComponent rest)
      else escape (192 + n / 64)%N
             (escape (128 + n mod 64)%N (encodeURIComponent rest))
  end.

End URI.

(** ** The network

    [fetch] is the only way the client reaches the platform. The network
    is an oracle: its answer to the n-th request of a run may depend on
    n and on the request. Every request made is logged. *)
Module Net.

Section Net.

Context `{num : JS.Number}.

(** The argument of [JSON.stringify]; the serialisation is kept
    symbolic. *)
Inductive body_text : Type :=
| JSON_stringify (v : JS.value).

Record RequestInit : Type := {
  method : string;
  headers : list (string * string);
  body : body_text
}.

(** The arguments of one call of [fetch]. *)
Record Request : Type := { input : string; init : option RequestInit }.

(** What the client reads from a response: [status], and the result of
    [json()], which is [None] when the body is not JSON. *)
Record Response : Type := { status : N; json : option JS.value }.

(** [response.ok] *)
Definition ok (response : Response) : bool :=
  ((200 <=? status response) && (status response <=? 299))%N.

Inductive outcome : Type :=
| Fulfilled (response : Response)
| Rejected (e : exn).

Record t : Type := {
  respond : nat -> Request -> outcome;
  log : list Request
}.

Definition next (net : t) (request : Request) : outcome :=
  respond net (length (log net)) request.

Definition record (request : Request) (net : t) : t :=
  {| respond := respond net; log := log net ++ [request] |}.

End Net.

End Net.

(** ** Platform client *)
Module AIONClient.

Section Client.

Context `{libs : WalletLibs} `{num : JS.Number}.

Definition API_BASE : string := "https://www.aionworld.cloud/api".

(** What [this.wallet] can hold: the [Wallet] of [generateWallet] and
    [setWalletAddress], or the [ImportedWallet] of [importWallet]. *)
Inductive held_wallet : Type :=
| AsWallet (w : Wallet.t)
| AsImportedWallet (w : ImportedWallet.t).

Definition held_publicKey (w : held_wallet) : string :=
  match w with
  | AsWallet w => Wallet.publicKey w
  | AsImportedWallet w => ImportedWallet.publicKey w
  end.

(** The fields of a client object. *)
Record t : Type := {
  username : string;
  wallet : option held_wallet;
  claimCode : JS.value
}.

(** [new AIONClient(username)] *)
Definition constructor (username : string) : t :=
  {| username := username; wallet := None; claimCode := JS.Null |}.

(** A method runs on the client object and the network. *)
Record state : Type := { this : t; network : Net.t }.

Definition M (A : Type) : Type := state -> result A * state.

Definition ret {A} (a : A) : M A := fun s => (Ok a, s).

Definition bind {A B} (m : M A) (k : A -> M B) : M B :=
  fun s =>
    match m s with
    | (Ok a, s') => k a s'
    | (Throw e, s') => (Throw e, s')
    end.

Definition throw {A} (e : exn) : M A := fun s => (Throw e, s).

Definition lift {A} (r : result A) : M A := fun s => (r, s).

Definition read {A} (field : t -> A) : M A := fun s => (Ok (field (this s)), s).

Definition set_wallet (w : held_wallet) : M unit :=
  fun s =>
    (Ok tt,
     {| this := {| username := username (this s);
                   wallet := Some w;
                   claimCode := claimCode (this s) |};
        network := network s |}).

Definition set_claimCode (v : JS.value) : M unit :=
  fun s =>
    (Ok tt,
     {| this := {| username := username (this s);
                   wallet := wallet (this s);
                   claimCode := v |};
        network := network s |}).

(** [await fetch(input, init)] *)
Definition fetch (input : string) (init : option Net.RequestInit)
  : M Net.Response :=
  fun s =>
    let request := {| Net.input := input; Net.init := init |} in
    let s' := {| this := this s; network := Net.record request (network s) |} in
    match Net.next (network s) request with
    | Net.Fulfilled response => (Ok response, s')
    | Net.Rejected e => (Throw e, s')
    end.

(** [await response.json()] *)
Definition response_json (response : Net.Response) : M JS.value :=
  match Net.json response with
  | Some data => ret data
  | None => throw SyntaxError
  end.

Declare Scope client_scope.
Delimit Scope client_scope with client.
Notation "x <- m ;; k" := (bind m (fun x => k))
  (at level 61, m at next level, right associativity) : client_scope.
Notation "m ;; k" := (bind m (fun _ => k))
  (at level 61, right associativity) : client_scope.

Local Open Scope string_scope.
Local Open Scope client_scope.

(** The [init] every POST of the client is made with. *)
Definition POST (payload : JS.value) : option Net.RequestInit :=
  Some {| Net.method := "POST";
          Net.headers := [("Content-Type", "application/json")];
          Net.body := Net.JSON_stringify payload |}.

(** [if (!response.ok) throw new Error(`API error: ${response.status}`)],
    the statement that follows every [fetch] of the client. *)
Definition check_ok (response : Net.Response) : M unit :=
  if negb (Net.ok response) then
    throw (Error ("API error: " ++ decimal (Net.status response)))
  else ret tt.

(** *** Wallet *)

(** In the three bodies below [generateWallet], [importFromMnemonic]
    and [validateAddress] are the functions of the wallet module. *)
Definition generateWallet (random : entropy) : M (string * string) :=
  w <- lift (generateWallet random) ;;
  set_wallet (AsWallet w) ;;
  ret (Wallet.publicKey w, Wallet.mnemonic w).

Definition importWallet (mnemonic : string) : M string :=
  w <- lift (importFromMnemonic mnemonic) ;;
  set_wallet (AsImportedWallet w) ;;
  ret (ImportedWallet.publicKey w).

Definition setWalletAddress (address : string) : M bool :=
  valid <- lift (validateAddress address) ;;
  if negb valid then
    throw (Error ("Invalid Solana address: " ++ address))
  else
    set_wallet (AsWallet {| Wallet.publicKey := address;
                            Wallet.secretKey := [];
                            Wallet.mnemonic := "" |}) ;;
    ret true.

(** [get walletAddress()]: [this.wallet?.publicKey ?? null] *)
Definition walletAddress : M JS.value :=
  w <- read wallet ;;
  ret match w with
      | Some w => JS.Str (held_publicKey w)
      | None => JS.Null
      end.

(** *** Claim *)

Definition startClaim : M JS.value :=
  name <- read username ;;
  response <- fetch (API_BASE ++ "/agent")
    (POST (JS.Obj [("action", JS.Str "start_claim");
                   ("username", JS.Str name)])) ;;
  check_ok response ;;
  data <- response_json response ;;
  claim_code <- lift (JS.get data "claim_code") ;;
  set_claimCode claim_code ;;
  ret data.

Definition completeClaim (postUrl : string) (walletAddress_arg : option string)
  : M JS.value :=
  address <-
    (if JS.ToBoolean (JS.optional walletAddress_arg)
     then ret (JS.optional walletAddress_arg)
     else walletAddress) ;;
  name <- read username ;;
  let payload := [("action", JS.Str "complete_claim");
                  ("username", JS.Str name);
                  ("post_url", JS.Str postUrl)] in
  let payload :=
    if JS.ToBoolean address then JS.set payload "wallet_address" address
    else payload in
  response <- fetch (API_BASE ++ "/agent") (POST (JS.Obj payload)) ;;
  check_ok response ;;
  response_json response.

Definition claim (postUrl : string) : M JS.value :=
  completeClaim postUrl None.

Definition getVerificationMessage : M string :=
  code <- read claimCode ;;
  (if negb (JS.ToBoolean code) then startClaim ;; ret tt else ret tt) ;;
  code <- read claimCode ;;
  ret ("Claiming my $AION tokens!" ++ LF ++ LF ++
       "Verification: " ++ JS.ToString code ++ LF ++ LF ++
       "www.aionworld.cloud").

(** *** Bug bounty *)

Definition getBugBounties : M JS.value :=
  response <- fetch (API_BASE ++ "/bug-bounty") None ;;
  check_ok response ;;
  data <- response_json response ;;
  categories <- lift (JS.get data "categories") ;;
  ret (JS.or categories (JS.Arr [])).

Record BugReport : Type := {
  category : string;
  title : string;
  description : string;
  stepsToReproduce : option string;
  expectedBehavior : option string;
  actualBehavior : option string
}.

Definition submitBugReport (params : BugReport) : M JS.value :=
  name <- read username ;;
  address <- walletAddress ;;
  response <- fetch (API_BASE ++ "/bug-bounty")
    (POST (JS.Obj [("username", JS.Str name);
                   ("category", JS.Str (category params));
                   ("title", JS.Str (title params));
                   ("description", JS.Str (description params));
                   ("steps_to_reproduce", JS.optional (stepsToReproduce params));
                   ("expected_behavior", JS.optional (expectedBehavior params));
                   ("actual_behavior", JS.optional (actualBehavior params));
                   ("wallet_address", address)])) ;;
  check_ok response ;;
  response_json response.

(** *** Challenges *)

Definition getChallenges (status_arg : option string) : M JS.value :=
  let status := match status_arg with Some s => s | None => "open" end in
  response <- fetch (API_BASE ++ "/challenges?status=" ++ status) None ;;
  check_ok response ;;
  data <- response_json response ;;
  challenges <- lift (JS.get data "challenges") ;;
  ret (JS.or challenges (JS.Arr [])).

Record ChallengeSolution : Type := {
  challengeSlug : string;
  solutionUrl : string;
  solution_description : string
}.

Definition submitChallengeSolution (params : ChallengeSolution) : M JS.value :=
  name <- read username ;;
  response <- fetch (API_BASE ++ "/challenges/submit")
    (POST (JS.Obj [("username", JS.Str name);
                   ("challenge_slug", JS.Str (challengeSlug params));
                   ("solution_url", JS.Str (solutionUrl params));
                   ("description", JS.Str (solution_description params))])) ;;
  check_ok response ;;
  response_json response.

(** *** Stats *)

Definition getMyStats : M JS.value :=
  name <- read username ;;
  response <- fetch (API_BASE ++ "/agent?username=" ++
                     URI.encodeURIComponent name) None ;;
  check_ok response ;;
  response_json response.

(** *** Quick start *)

(** [quickClaim] makes its own client; it runs on the network alone. *)
Definition quickClaim (username postUrl : string)
    (walletAddress_arg : option string) (net : Net.t)
  : result JS.value * state :=
  let client := constructor username in
  ((match walletAddress_arg with
    | Some address =>
        if JS.ToBoolean (JS.Str address)
        then setWalletAddress address ;; ret tt
        else ret tt
    | None => ret tt
    end ;;
    claim postUrl) {| this := client; network := net |}).

End Client.

End AIONClient.

(** ** Stand-ins for the packages

    Small executable stand-ins for the cryptographic packages and for
    the numbers of JavaScript, to run the SDK on concrete inputs. A
    phrase is the hexadecimal text of its entropy. *)
Module Sample.

Definition bytes_of_string (s : string) : list byte :=
  map byte_of_ascii (list_ascii_of_string s).

Definition lower_hex (c : ascii) : bool :=
  let n := N_of_ascii c in
  ((48 <=? n) && (n <=? 57) || (97 <=? n) && (n <=? 102))%N.

Definition libs : WalletLibs := {|
  entropy := list byte;
  bip39_generateMnemonic strength random :=
    toString_hex (firstn (N.to_nat (strength / 8)) random);
  bip39_validateMnemonic phrase :=
    ((String.length phrase =? 32) || (String.length phrase =? 64))%nat
    && all_chars lower_hex phrase;
  bip39_mnemonicToSeedSync phrase := bytes_of_string phrase;
  derivePath path seedHex :=
    if String.eqb path "m/44'/501'/0'/0'" then
      Ok {| key := firstn 32 (bytes_of_string seedHex ++ repeat x00 32);
            chainCode := [] |}
    else Throw (Error "Invalid derivation path");
  Keypair_fromSeed seed :=
    if (length seed =? 32)%nat then
      Ok {| Keypair.publicKey := rev seed;
            Keypair.secretKey := seed ++ rev seed |}
    else Throw (Error "bad seed size");
  Keypair_fromSecretKey secretKey :=
    if (length secretKey =? 64)%nat then
      Ok {| Keypair.publicKey := skipn 32 secretKey;
            Keypair.secretKey := secretKey |}
    else Throw (Error "bad secret key size")
|}.

(** Natural numbers for the doubles. *)
Definition num : JS.Number := {|
  JS.number := N;
  JS.Number_toString := decimal;
  JS.Number_ToBoolean n := negb (n =? 0)%N
|}.

(** A random draw of 32 bytes. *)
Definition random : list byte :=
  [x00; x01; x02; x03; x04; x05; x06; x07; x08; x09; x0a; x0b; x0c; x0d; x0e; x0f;
   xf0; xf1; xf2; xf3; xf4; xf5; xf6; xf7; xf8; xf9; xfa; xfb; xfc; xfd; xfe; xff].

(** A platform that gives one answer to every request. *)
Definition platform (status : N) (payload : JS.value (num := num))
  : Net.t (num := num) :=
  {| Net.respond := fun _ _ =>
       Net.Fulfilled {| Net.status := status; Net.json := Some payload |};
     Net.log := [] |}.

(** A new client for the agent [agent] in front of such a platform. *)
Definition fresh (status : N) (payload : JS.value (num := num))
  : AIONClient.state (num := num) :=
  {| AIONClient.this := AIONClient.constructor "agent";
     AIONClient.network := platform status payload |}.

Definition claim_started (code : string) : JS.value (num := num) :=
  JS.Obj [("claim_code", JS.Str code); ("message", JS.Str "Post the message")].

Definition system_program : string := "11111111111111111111111111111111".

(** A client that holds the system program as its wallet address. *)
Definition with_system_program : AIONClient.state (num := num) :=
  snd (AIONClient.setWalletAddress system_program
         (fresh 200 (JS.Obj [("success", JS.Bool true)]))).

End Sample.

(** * Properties *)

(** ** Positional numerals *)
Module Numeral.

Local Open Scope N_scope.

(** The number a numeral stands for, least significant digit first. *)
Fixpoint value (base : N) (digits : list N) : N :=
  match digits with
  | [] => 0
  | d :: ds => d + base * value base ds
  end.

(** Horner evaluation of a numeral given most significant digit first. *)
Definition horner (base acc : N) (digits : list N) : N :=
  fold_left (fun a d => a * base + d) digits acc.

(** No zero at the most significant end. *)
Fixpoint canonical (digits : list N) : Prop :=
  match digits with
  | [] => True
  | [d] => d <> 0
  | _ :: ds => canonical ds
  end.

Definition digits_below (base : N) (digits : list N) : Prop :=
  Forall (fun d => d < base) digits.

Lemma value_app base ds1 ds2 :
  value base (ds1 ++ ds2) =
  value base ds1 + base ^ N.of_nat (length ds1) * value base ds2.
Proof.
  induction ds1 as [|d ds1 IH]; cbn [app value length].
  - rewrite N.pow_0_r. lia.
  - rewrite IH, Nat2N.inj_succ, N.pow_succ_r'. lia.
Qed.

Lemma horner_rev base acc digits :
  horner base acc digits = value base (rev digits ++ [acc]).
Proof.
  revert acc. induction digits as [|d ds IH]; intros acc; cbn.
  - lia.
  - unfold horner in IH. rewrite IH.
    rewrite <- app_assoc. cbn [app].
    rewrite !value_app. cbn [value]. lia.
Qed.

Lemma horner_0 base digits :
  horner base 0 digits = value base (rev digits).
Proof.
  rewrite horner_rev, value_app. cbn. lia.
Qed.

Lemma spill_value base fuel carry :
  1 < base -> carry < 2 ^ N.of_nat fuel ->
  value base (Base58.spill base fuel carry) = carry.
Proof.
  intros Hb. revert carry.
  induction fuel as [|fuel IH]; intros carry Hc; cbn [Base58.spill].
  - cbn in Hc. cbn. lia.
  - destruct (N.eqb_spec carry 0) as [->|Hnz]; [reflexivity|].
    cbn [value]. rewrite IH.
    + pose proof (N.div_mod carry base). lia.
    + rewrite Nat2N.inj_succ, N.pow_succ_r' in Hc.
      apply N.Div0.div_lt_upper_bound.
      assert (2 * 2 ^ N.of_nat fuel <= base * 2 ^ N.of_nat fuel)
        by (apply N.mul_le_mono_r; lia).
      lia.
Qed.

Lemma spill_below base fuel carry :
  0 < base -> digits_below base (Base58.spill base fuel carry).
Proof.
  intros Hb. revert carry.
  induction fuel as [|fuel IH]; intros carry; cbn [Base58.spill].
  - constructor.
  - destruct (carry =? 0); constructor.
    + apply N.mod_lt. lia.
    + apply IH.
Qed.

Lemma muladd_value base mult digits carry :
  1 < base ->
  value base (Base58.muladd base mult digits carry) =
  mult * value base digits + carry.
Proof.
  intros Hb. revert carry.
  induction digits as [|d ds IH]; intros carry; cbn [Base58.muladd value].
  - rewrite spill_value; [lia | assumption |].
    rewrite N2Nat.id. apply N.size_gt.
  - rewrite IH.
    pose proof (N.div_mod (carry + mult * d) base). lia.
Qed.

Lemma muladd_below base mult digits carry :
  0 < base -> digits_below base (Base58.muladd base mult digits carry).
Proof.
  intros Hb. revert carry.
  induction digits as [|d ds IH]; intros carry; cbn [Base58.muladd].
  - apply spill_below; assumption.
  - constructor; [apply N.mod_lt; lia | apply IH].
Qed.

Lemma canonical_tail d ds : canonical (d :: ds) -> canonical ds.
Proof. destruct ds; cbn; auto. Qed.

Lemma canonical_snoc ds d : d <> 0 -> canonical (ds ++ [d]).
Proof.
  intros Hd. induction ds as [|x ds IH]; cbn [app]; [exact Hd|].
  destruct ds; [exact Hd | exact IH].
Qed.

Lemma canonical_rev_skip_zeros digits :
  canonical (rev (Base58.skip_zeros digits)).
Proof.
  induction digits as [|d ds IH]; [exact I|].
  destruct d as [|p]; [exact IH|].
  cbn [Base58.skip_zeros rev]. apply canonical_snoc. discriminate.
Qed.

Lemma value_rev_skip_zeros base digits :
  value base (rev (Base58.skip_zeros digits)) = value base (rev digits).
Proof.
  induction digits as [|d ds IH]; [reflexivity|].
  destruct d as [|p]; [|reflexivity].
  cbn [Base58.skip_zeros rev]. rewrite IH, value_app. cbn. lia.
Qed.

Lemma skip_zeros_below base digits :
  digits_below base digits -> digits_below base (Base58.skip_zeros digits).
Proof.
  induction 1 as [|d ds Hd Hds IH]; [constructor|].
  destruct d; [exact IH | constructor; assumption].
Qed.

Lemma skip_zeros_head digits :
  hd_error (Base58.skip_zeros digits) <> Some 0.
Proof.
  induction digits as [|d ds IH]; [discriminate|].
  destruct d; [exact IH | discriminate].
Qed.

Lemma value_pos base digits :
  0 < base -> canonical digits -> digits <> [] -> 0 < value base digits.
Proof.
  intros Hb. induction digits as [|d ds IH]; intros Hc Hne; [congruence|].
  destruct ds as [|d' ds].
  - cbn in *. lia.
  - specialize (IH Hc ltac:(discriminate)).
    change (0 < d + base * value base (d' :: ds)). nia.
Qed.

(** A canonical numeral is determined by its value. *)
Lemma canonical_unique base ds1 ds2 :
  0 < base ->
  digits_below base ds1 -> digits_below base ds2 ->
  canonical ds1 -> canonical ds2 ->
  value base ds1 = value base ds2 -> ds1 = ds2.
Proof.
  intros Hb H1. revert ds2.
  induction H1 as [|d1 ds1 Hd1 H1 IH]; intros ds2 H2 C1 C2 Hv.
  - destruct ds2 as [|d2 ds2]; [reflexivity|].
    pose proof (value_pos base (d2 :: ds2) Hb C2 ltac:(discriminate)) as Hp.
    rewrite <- Hv in Hp. cbn in Hp. lia.
  - destruct ds2 as [|d2 ds2].
    + pose proof (value_pos base (d1 :: ds1) Hb C1 ltac:(discriminate)) as Hp.
      rewrite Hv in Hp. cbn in Hp. lia.
    + inversion H2 as [|? ? Hd2 H2']; subst.
      cbn [value] in Hv.
      destruct (N.div_mod_unique base (value base ds1) (value base ds2) d1 d2)
        as [Hq Hr]; [assumption | assumption | lia |].
      subst d2. f_equal.
      apply IH; eauto using canonical_tail.
Qed.

Lemma value_upper base digits :
  digits_below base digits -> value base digits < base ^ N.of_nat (length digits).
Proof.
  induction 1 as [|d ds Hd Hds IH]; cbn [value length].
  - cbn. lia.
  - rewrite Nat2N.inj_succ, N.pow_succ_r'. nia.
Qed.

Lemma value_lower base digits :
  0 < base -> canonical digits -> digits <> [] ->
  base ^ N.of_nat (pred (length digits)) <= value base digits.
Proof.
  intros Hb. induction digits as [|d ds IH]; intros Hc Hne; [congruence|].
  destruct ds as [|d' ds].
  - cbn in *. lia.
  - specialize (IH Hc ltac:(discriminate)).
    cbn [length pred] in *.
    change (base ^ N.of_nat (S (length ds)) <= d + base * value base (d' :: ds)).
    rewrite Nat2N.inj_succ, N.pow_succ_r'. nia.
Qed.

End Numeral.

(** ** Base58: alphabet, digits and the round trip *)
Module Base58Facts.

Import Base58 Numeral.
Local Open Scope N_scope.

Lemma below_forallb (n : nat) (p : N -> bool) :
  forallb p (map N.of_nat (seq 0 n)) = true ->
  forall d, d < N.of_nat n -> p d = true.
Proof.
  intros H d Hd. rewrite forallb_forall in H. apply H.
  apply in_map_iff. exists (N.to_nat d). split; [apply N2Nat.id|].
  apply in_seq. lia.
Qed.

Ltac each_char c := destruct c as [[] [] [] [] [] [] [] []].

(** The character class of the regular expression is the alphabet of
    the decoder. *)
Lemma class_BASE_MAP c : base58_class c = negb (BASE_MAP c =? 255).
Proof. each_char c; vm_compute; reflexivity. Qed.

Lemma class_ALPHABET c :
  base58_class c = true <-> In c (list_ascii_of_string ALPHABET).
Proof.
  split.
  - each_char c; vm_compute; intros H; try discriminate H; tauto.
  - intros H. vm_compute in H.
    repeat (destruct H as [<-|H]; [reflexivity|]). destruct H.
Qed.

Lemma BASE_MAP_charAt d : d < BASE -> BASE_MAP (charAt d) = d.
Proof.
  intros Hd. apply N.eqb_eq.
  apply (below_forallb 58 (fun d => BASE_MAP (charAt d) =? d)); [|exact Hd].
  vm_compute. reflexivity.
Qed.

Lemma charAt_class d : d < BASE -> base58_class (charAt d) = true.
Proof.
  apply (below_forallb 58 (fun d => base58_class (charAt d))).
  vm_compute. reflexivity.
Qed.

Lemma charAt_LEADER d :
  d < BASE -> d <> 0 -> Ascii.eqb (charAt d) LEADER = false.
Proof.
  intros Hd Hnz.
  pose proof (below_forallb 58
    (fun d => (d =? 0) || negb (Ascii.eqb (charAt d) LEADER))
    ltac:(vm_compute; reflexivity) d Hd) as H.
  cbv beta in H. apply N.eqb_neq in Hnz. rewrite Hnz in H.
  cbn [orb] in H. now apply negb_true_iff in H.
Qed.

Lemma to_N_zero b : Byte.to_N b = 0 -> b = x00.
Proof.
  intros H. pose proof (Byte.of_to_N b) as E. rewrite H in E.
  cbn in E. congruence.
Qed.

Lemma byte_of_digit_to_N b : byte_of_digit (Byte.to_N b) = b.
Proof. unfold byte_of_digit. now rewrite Byte.of_to_N. Qed.

Lemma bytes_below (bs : list byte) : digits_below 256 (map Byte.to_N bs).
Proof.
  induction bs as [|b bs IH]; constructor; [|exact IH].
  pose proof (Byte.to_N_bounded b). lia.
Qed.

(** *** The leading zero bytes *)

Lemma leading_zero_bytes_spec source :
  let (zeroes, rest) := leading_zero_bytes source in
  source = repeat x00 zeroes ++ rest /\
  hd_error (map Byte.to_N rest) <> Some 0.
Proof.
  induction source as [|b bs IH]; cbn [leading_zero_bytes].
  - split; [reflexivity | discriminate].
  - destruct (N.eqb_spec (Byte.to_N b) 0) as [Hz|Hnz].
    + destruct (leading_zero_bytes bs) as [zeroes rest].
      destruct IH as [-> Hhd]. split; [|exact Hhd].
      cbn. now rewrite (to_N_zero b Hz).
    + split; [reflexivity|]. cbn. congruence.
Qed.

Lemma canonical_rev_hd digits :
  hd_error digits <> Some 0 -> canonical (rev digits).
Proof.
  destruct digits as [|d ds]; [intros _; exact I|].
  cbn [hd_error rev]. intros H. apply canonical_snoc. congruence.
Qed.

(** *** The two loops compute in Horner's scheme *)

Lemma encode_loop_value source b58 :
  value BASE (encode_loop source b58) =
  horner 256 (value BASE b58) (map Byte.to_N source).
Proof.
  revert b58. induction source as [|b bs IH]; intros b58; [reflexivity|].
  cbn [encode_loop map]. rewrite IH, muladd_value by reflexivity.
  unfold horner. cbn [fold_left]. f_equal. lia.
Qed.

Lemma encode_loop_below source b58 :
  digits_below BASE b58 -> digits_below BASE (encode_loop source b58).
Proof.
  revert b58. induction source as [|b bs IH]; intros b58 H; [exact H|].
  cbn [encode_loop]. apply IH, muladd_below. reflexivity.
Qed.

Lemma decode_loop_digits digits b256 :
  digits_below BASE digits -> digits_below 256 b256 ->
  exists b256',
    decode_loop (string_of_list_ascii (map charAt digits)) b256 = Some b256' /\
    value 256 b256' = horner BASE (value 256 b256) digits /\
    digits_below 256 b256'.
Proof.
  intros Hd. revert b256.
  induction Hd as [|d ds Hd Hds IH]; intros b256 Hb.
  - exists b256. auto.
  - cbn [map string_of_list_ascii decode_loop].
    rewrite (BASE_MAP_charAt d Hd).
    destruct (N.eqb_spec d 255) as [->|_]; [discriminate Hd|].
    destruct (IH (muladd 256 BASE b256 d)) as (b256' & E & V & B).
    { apply muladd_below. reflexivity. }
    exists b256'. split; [exact E|]. split; [|exact B].
    rewrite V, muladd_value by reflexivity.
    unfold horner. cbn [fold_left]. f_equal. lia.
Qed.

(** *** The shape of an encoding *)

Definition digit_string (digits : list N) : string :=
  string_of_list_ascii (map charAt digits).

Lemma encode_shape source :
  let (zeroes, rest) := leading_zero_bytes source in
  exists digits,
    encode source = repeat_leader zeroes (digit_string digits) /\
    digits_below BASE digits /\
    hd_error digits <> Some 0 /\
    value BASE (rev digits) = value 256 (rev (map Byte.to_N rest)).
Proof.
  unfold encode. destruct (leading_zero_bytes source) as [zeroes rest].
  exists (skip_zeros (rev (encode_loop rest []))).
  split; [reflexivity|]. split; [|split].
  - apply skip_zeros_below, Forall_rev, encode_loop_below. constructor.
  - apply skip_zeros_head.
  - rewrite value_rev_skip_zeros, rev_involutive, encode_loop_value.
    apply horner_0.
Qed.

Lemma leading_leaders_repeat zeroes digits :
  digits_below BASE digits -> hd_error digits <> Some 0 ->
  leading_leaders (repeat_leader zeroes (digit_string digits)) =
  (zeroes, digit_string digits).
Proof.
  intros Hb Hhd. induction zeroes as [|z IH]; cbn [repeat_leader].
  - destruct digits as [|d ds]; [reflexivity|].
    unfold digit_string. cbn [map string_of_list_ascii leading_leaders].
    inversion Hb; subst.
    rewrite charAt_LEADER; [reflexivity | assumption |].
    cbn in Hhd. congruence.
  - cbn [leading_leaders]. rewrite Ascii.eqb_refl, IH. reflexivity.
Qed.

(** Decoding an encoding gives the bytes back. *)
Lemma decode_encode source : decode (encode source) = Ok source.
Proof.
  pose proof (leading_zero_bytes_spec source) as Hz.
  pose proof (encode_shape source) as He.
  destruct (leading_zero_bytes source) as [zeroes rest].
  destruct Hz as [Hsrc Hrest].
  destruct He as (digits & -> & Hb & Hhd & Hv).
  unfold decode, decodeUnsafe.
  rewrite leading_leaders_repeat by assumption.
  destruct (decode_loop_digits digits [] Hb ltac:(constructor))
    as (b256 & E & V & B).
  unfold digit_string. rewrite E, horner_0 in *.
  replace (skip_zeros (rev b256)) with (map Byte.to_N rest).
  - rewrite map_map, (map_ext _ (fun b => b) byte_of_digit_to_N), map_id.
    now rewrite Hsrc.
  - rewrite <- (rev_involutive (map Byte.to_N rest)).
    rewrite <- (rev_involutive (skip_zeros (rev b256))). f_equal.
    apply (canonical_unique 256); try reflexivity.
    + apply Forall_rev, bytes_below.
    + apply Forall_rev, skip_zeros_below, Forall_rev, B.
    + apply canonical_rev_hd, Hrest.
    + apply canonical_rev_skip_zeros.
    + rewrite value_rev_skip_zeros, rev_involutive. cbn in V. congruence.
Qed.

(** The example of the package's documentation. *)
Example encode_documented :
  encode [x00; x3c; x17; x6e; x65; x9b; xea; x0f; x29; xa3; xe9; xbf; x78;
          x80; xc1; x12; xb1; xb3; x1b; x4d; xc8; x26; x26; x81; x87] =
  "16UjcYNBG9GTK4uq2f7yYEbuifqCzoLMGS"%string.
Proof. reflexivity. Qed.

Example decode_documented :
  decode "16UjcYNBG9GTK4uq2f7yYEbuifqCzoLMGS" =
  Ok [x00; x3c; x17; x6e; x65; x9b; xea; x0f; x29; xa3; xe9; xbf; x78;
      x80; xc1; x12; xb1; xb3; x1b; x4d; xc8; x26; x26; x81; x87].
Proof. reflexivity. Qed.

Example decode_rejects_zero : decode "10" = Throw (Error "Non-base58 character").
Proof. reflexivity. Qed.

(** *** Length and characters of an encoding *)

Lemma length_repeat_leader zeroes tail :
  String.length (repeat_leader zeroes tail) = (zeroes + String.length tail)%nat.
Proof. induction zeroes as [|z IH]; cbn; congruence. Qed.

Lemma length_digit_string digits :
  String.length (digit_string digits) = length digits.
Proof.
  unfold digit_string. induction digits as [|d ds IH]; cbn; congruence.
Qed.

Lemma all_chars_repeat_leader zeroes tail :
  all_chars base58_class tail = true ->
  all_chars base58_class (repeat_leader zeroes tail) = true.
Proof. intros H. induction zeroes as [|z IH]; cbn; assumption. Qed.

Lemma all_chars_digit_string digits :
  digits_below BASE digits ->
  all_chars base58_class (digit_string digits) = true.
Proof.
  unfold digit_string. induction 1 as [|d ds Hd Hds IH]; [reflexivity|].
  cbn [map string_of_list_ascii all_chars]. now rewrite charAt_class, IH.
Qed.

Lemma pow_256_58 (k : nat) : (k <= 32)%nat -> 256 ^ N.of_nat k <= 58 ^ N.of_nat (k + 12).
Proof.
  intros Hk. apply N.leb_le.
  pose proof (below_forallb 33
    (fun k => 256 ^ k <=? 58 ^ N.of_nat (N.to_nat k + 12))
    ltac:(vm_compute; reflexivity) (N.of_nat k) ltac:(lia)) as H.
  cbv beta in H. now rewrite Nat2N.id in H.
Qed.

Lemma encode_length_32 source :
  length source = 32%nat ->
  (32 <= String.length (encode source) <= 44)%nat.
Proof.
  intros Hlen.
  pose proof (leading_zero_bytes_spec source) as Hz.
  pose proof (encode_shape source) as He.
  destruct (leading_zero_bytes source) as [zeroes rest].
  destruct Hz as [Hsrc Hrest].
  destruct He as (digits & -> & Hb & Hhd & Hv).
  rewrite length_repeat_leader, length_digit_string.
  rewrite Hsrc, length_app, repeat_length in Hlen.
  pose proof (value_upper 256 (rev (map Byte.to_N rest))
                (Forall_rev (bytes_below rest))) as Hup256.
  pose proof (value_upper BASE (rev digits) (Forall_rev Hb)) as Hup58.
  rewrite length_rev, length_map in Hup256. rewrite length_rev in Hup58.
  assert (Hlow256 : rest <> [] ->
            256 ^ N.of_nat (pred (length rest)) <=
            value 256 (rev (map Byte.to_N rest))).
  { intros Hne.
    pose proof (value_lower 256 (rev (map Byte.to_N rest)) ltac:(reflexivity)
                  (canonical_rev_hd _ Hrest)) as H.
    rewrite length_rev, length_map in H. apply H.
    destruct rest; [congruence | cbn; intros E].
    apply app_eq_nil in E. destruct E; discriminate. }
  assert (Hlow58 : digits <> [] ->
            BASE ^ N.of_nat (pred (length digits)) <= value BASE (rev digits)).
  { intros Hne.
    pose proof (value_lower BASE (rev digits) ltac:(reflexivity)
                  (canonical_rev_hd _ Hhd)) as H.
    rewrite length_rev in H. apply H.
    destruct digits; [congruence | cbn; intros E].
    apply app_eq_nil in E. destruct E; discriminate. }
  rewrite Hv in *. clear Hv.
  split.
  - destruct rest as [|b rest']; [cbn in Hlen; lia|].
    specialize (Hlow256 ltac:(discriminate)).
    set (n := length (b :: rest')) in *.
    assert (H : 256 ^ N.of_nat (pred n) < 256 ^ N.of_nat (length digits)).
    { eapply N.le_lt_trans; [exact Hlow256|].
      eapply N.lt_le_trans; [exact Hup58|].
      apply N.pow_le_mono_l. unfold BASE. lia. }
    apply N.pow_lt_mono_r_iff in H; lia.
  - destruct digits as [|d ds]; [cbn; lia|].
    specialize (Hlow58 ltac:(discriminate)).
    set (m := length (d :: ds)) in *.
    assert (H : BASE ^ N.of_nat (pred m) < BASE ^ N.of_nat (length rest + 12)).
    { eapply N.le_lt_trans; [exact Hlow58|].
      eapply N.lt_le_trans; [exact Hup256|].
      apply pow_256_58. lia. }
    apply N.pow_lt_mono_r_iff in H; unfold BASE; lia.
Qed.

Lemma encode_chars source :
  all_chars base58_class (encode source) = true.
Proof.
  pose proof (encode_shape source) as He.
  destruct (leading_zero_bytes source) as [zeroes rest].
  destruct He as (digits & -> & Hb & _).
  apply all_chars_repeat_leader, all_chars_digit_string, Hb.
Qed.

End Base58Facts.

(** ** Address validation *)

Lemma all_chars_spec p s :
  all_chars p s = true <->
  forall c, In c (list_ascii_of_string s) -> p c = true.
Proof.
  induction s as [|a s IH]; cbn [all_chars list_ascii_of_string].
  - split; [intros _ c [] | reflexivity].
  - rewrite andb_true_iff, IH. split.
    + intros [Ha Hs] c [<-|Hc]; auto.
    + intros H. split; [apply H; left; reflexivity|].
      intros c Hc. apply H. right. exact Hc.
Qed.

Lemma base58Regex_test_spec s :
  base58Regex_test s = true <->
  s <> EmptyString /\
  forall c, In c (list_ascii_of_string s) ->
            In c (list_ascii_of_string Base58.ALPHABET).
Proof.
  unfold base58Regex_test.
  assert (A : all_chars base58_class s = true <->
              forall c, In c (list_ascii_of_string s) ->
                        In c (list_ascii_of_string Base58.ALPHABET)).
  { rewrite all_chars_spec. split; intros H c Hc.
    - apply Base58Facts.class_ALPHABET, H, Hc.
    - apply Base58Facts.class_ALPHABET, H, Hc. }
  destruct s as [|a s].
  - split; [discriminate | intros [H _]; congruence].
  - rewrite A. split; [intros H; split; [discriminate | exact H] | tauto].
Qed.

(** After the regular expression has accepted a string the decoder
    cannot meet a character it does not know. *)
Lemma decode_loop_total s b256 :
  all_chars base58_class s = true ->
  exists b256', Base58.decode_loop s b256 = Some b256'.
Proof.
  revert b256. induction s as [|a s IH]; intros b256 H.
  - exists b256. reflexivity.
  - cbn [all_chars] in H. apply andb_true_iff in H as [Ha Hs].
    cbn [Base58.decode_loop].
    rewrite Base58Facts.class_BASE_MAP in Ha. apply negb_true_iff in Ha.
    rewrite Ha. apply IH, Hs.
Qed.

Lemma leading_leaders_suffix p s :
  all_chars p s = true ->
  all_chars p (snd (Base58.leading_leaders s)) = true.
Proof.
  induction s as [|a s IH]; intros H; [exact H|].
  cbn [Base58.leading_leaders].
  destruct (Ascii.eqb a Base58.LEADER); [|exact H].
  cbn [all_chars] in H. apply andb_true_iff in H as [_ Hs].
  specialize (IH Hs). destruct (Base58.leading_leaders s). exact IH.
Qed.

Lemma decode_total s :
  all_chars base58_class s = true ->
  exists decoded, Base58.decode s = Ok decoded.
Proof.
  intros H. unfold Base58.decode, Base58.decodeUnsafe.
  pose proof (leading_leaders_suffix _ _ H) as Hs.
  destruct (Base58.leading_leaders s) as [zeroes rest]. cbn [snd] in Hs.
  destruct (decode_loop_total rest [] Hs) as [b256 ->]. eauto.
Qed.

Lemma validateAddress_length address :
  (String.length address < 32)%nat \/ (44 < String.length address)%nat ->
  validateAddress address = Ok false.
Proof.
  intros H. unfold validateAddress, validateAddress_try.
  destruct (Nat.ltb_spec (String.length address) 32); [reflexivity|].
  destruct (Nat.ltb_spec 44 (String.length address)); [reflexivity|lia].
Qed.

Lemma validateAddress_regex address :
  base58Regex_test address = false -> validateAddress address = Ok false.
Proof.
  intros H. unfold validateAddress, validateAddress_try. rewrite H.
  now destruct (_ || _).
Qed.

(** C2. For every string [validateAddress] returns a boolean and does
    not throw. The boolean is [true] exactly when the length of the
    string is between 32 and 44, every character is in the base58
    alphabet, and the string decodes to exactly 32 bytes; a failure of
    the decoder gives [false]. *)
Theorem C2_validateAddress_policy (address : string) :
  exists b : bool,
    validateAddress address = Ok b /\
    (b = true <->
       (32 <= String.length address <= 44)%nat /\
       (forall c, In c (list_ascii_of_string address) ->
                  In c (list_ascii_of_string Base58.ALPHABET)) /\
       (exists decoded,
           Base58.decode address = Ok decoded /\ length decoded = 32%nat)) /\
    (forall e, Base58.decode address = Throw e -> b = false).
Proof.
  unfold validateAddress, validateAddress_try.
  destruct (Nat.ltb_spec (String.length address) 32) as [Hlo|Hlo];
    cbn [orb].
  { exists false. repeat split; try discriminate. intros (? & _); lia. }
  destruct (Nat.ltb_spec 44 (String.length address)) as [Hhi|Hhi].
  { exists false. repeat split; try discriminate. intros (? & _); lia. }
  destruct (base58Regex_test address) eqn:Hre; cbn [negb].
  2:{ exists false. repeat split; try discriminate.
      intros (_ & Hc & _). exfalso.
      assert (base58Regex_test address = true); [|congruence].
      apply base58Regex_test_spec. split; [|exact Hc].
      intros ->. cbn in Hlo. lia. }
  apply base58Regex_test_spec in Hre as [_ Hc].
  destruct (Base58.decode address) as [decoded|e] eqn:Hd;
    cbn [result_bind try_catch].
  - exists (length decoded =? 32)%nat. split; [reflexivity|]. split.
    + rewrite Nat.eqb_eq. split.
      * intros Hl. repeat split; try lia; eauto.
      * intros (_ & _ & d & [= <-] & Hl). exact Hl.
    + discriminate.
  - exists false. repeat split; try discriminate.
    intros (_ & _ & d & Hd' & _). discriminate Hd'.
Qed.

(** C3. The base58 encoding of any 32 bytes is a valid address, and a
    string whose length is outside 32..44 or that has a character
    outside the base58 alphabet is not. *)
Theorem C3_encoded_key_is_valid :
  (forall bytes : list byte,
      length bytes = 32%nat ->
      validateAddress (Base58.encode bytes) = Ok true) /\
  (forall address : string,
      (String.length address < 32)%nat \/
      (44 < String.length address)%nat \/
      (exists c, In c (list_ascii_of_string address) /\
                 ~ In c (list_ascii_of_string Base58.ALPHABET)) ->
      validateAddress address = Ok false).
Proof.
  split.
  - intros bytes Hlen.
    destruct (Base58Facts.encode_length_32 bytes Hlen) as [Hlo Hhi].
    unfold validateAddress, validateAddress_try.
    destruct (Nat.ltb_spec (String.length (Base58.encode bytes)) 32); [lia|].
    destruct (Nat.ltb_spec 44 (String.length (Base58.encode bytes))); [lia|].
    cbn [orb].
    assert (Hre : base58Regex_test (Base58.encode bytes) = true).
    { unfold base58Regex_test.
      destruct (Base58.encode bytes) eqn:E; [cbn in Hlo; lia|].
      rewrite <- E. apply Base58Facts.encode_chars. }
    rewrite Hre, Base58Facts.decode_encode. cbn. now rewrite Hlen.
  - intros address [H|[H|(c & Hin & Hout)]];
      try (apply validateAddress_length; tauto).
    apply validateAddress_regex.
    destruct (base58Regex_test address) eqn:Hre; [|reflexivity].
    apply base58Regex_test_spec in Hre as [_ Hc].
    elim Hout. apply Hc, Hin.
Qed.

(** ** Key derivation *)

Section KeyDerivation.

Context `{libs : WalletLibs}.

Local Open Scope result_scope.

(** The keypair of a phrase at a derivation path, as the specification
    describes it: seed of the phrase, hierarchical derivation at the
    path, keypair of the derived key. *)
Definition derived_keypair (path mnemonic : string) : result Keypair.t :=
  let? derived :=
    derivePath path (toString_hex (bip39_mnemonicToSeedSync mnemonic)) in
  Keypair_fromSeed (key derived).

Lemma importFromMnemonic_Ok mnemonic w :
  importFromMnemonic mnemonic = Ok w ->
  bip39_validateMnemonic mnemonic = true /\
  exists keypair,
    derived_keypair "m/44'/501'/0'/0'" mnemonic = Ok keypair /\
    w = {| ImportedWallet.publicKey := toBase58 (Keypair.publicKey keypair);
           ImportedWallet.secretKey := Keypair.secretKey keypair |}.
Proof.
  unfold importFromMnemonic, derived_keypair.
  destruct (bip39_validateMnemonic mnemonic); [|discriminate].
  cbn [negb]. intros H. split; [reflexivity|].
  destruct (derivePath _ _) as [derived|e]; [|discriminate].
  cbn [result_bind] in *.
  destruct (Keypair_fromSeed _) as [keypair|e]; [|discriminate].
  cbn [result_bind] in *. exists keypair. split; congruence.
Qed.

Lemma generateWallet_Ok random w :
  generateWallet random = Ok w ->
  exists keypair,
    derived_keypair "m/44'/501'/0'/0'" (Wallet.mnemonic w) = Ok keypair /\
    Wallet.mnemonic w = bip39_generateMnemonic 256 random /\
    Wallet.publicKey w = toBase58 (Keypair.publicKey keypair) /\
    Wallet.secretKey w = Keypair.secretKey keypair.
Proof.
  unfold generateWallet, derived_keypair.
  destruct (derivePath _ _) as [derived|e] eqn:Hd; [|discriminate].
  cbn [result_bind].
  destruct (Keypair_fromSeed _) as [keypair|e] eqn:Hk; [|discriminate].
  cbn [result_bind]. intros [= <-]. cbn.
  exists keypair. rewrite Hd. cbn [result_bind]. auto.
Qed.

(** C1. The keys of an imported wallet are those of the keypair derived
    from the phrase at the path m/44'/501'/0'/0', so two imports of one
    phrase give the same public key and the same secret key; and
    importing the phrase of a generated wallet gives the public key and
    the secret key of that wallet. *)
Theorem C1_derivation_is_deterministic :
  (forall mnemonic w,
      importFromMnemonic mnemonic = Ok w ->
      exists keypair,
        derived_keypair "m/44'/501'/0'/0'" mnemonic = Ok keypair /\
        ImportedWallet.publicKey w = toBase58 (Keypair.publicKey keypair) /\
        ImportedWallet.secretKey w = Keypair.secretKey keypair) /\
  (forall mnemonic w1 w2,
      importFromMnemonic mnemonic = Ok w1 ->
      importFromMnemonic mnemonic = Ok w2 ->
      ImportedWallet.publicKey w1 = ImportedWallet.publicKey w2 /\
      ImportedWallet.secretKey w1 = ImportedWallet.secretKey w2) /\
  (forall random generated,
      generateWallet random = Ok generated ->
      bip39_validateMnemonic (Wallet.mnemonic generated) = true ->
      importFromMnemonic (Wallet.mnemonic generated) =
      Ok {| ImportedWallet.publicKey := Wallet.publicKey generated;
            ImportedWallet.secretKey := Wallet.secretKey generated |}).
Proof.
  split; [|split].
  - intros mnemonic w H.
    apply importFromMnemonic_Ok in H as (_ & keypair & Hk & ->).
    exists keypair. auto.
  - intros mnemonic w1 w2 H1 H2.
    apply importFromMnemonic_Ok in H1 as (_ & k1 & Hk1 & ->).
    apply importFromMnemonic_Ok in H2 as (_ & k2 & Hk2 & ->).
    rewrite Hk1 in Hk2. injection Hk2 as <-. auto.
  - intros random generated Hg Hvalid.
    apply generateWallet_Ok in Hg as (keypair & Hk & _ & -> & ->).
    unfold importFromMnemonic. rewrite Hvalid. cbn [negb].
    unfold derived_keypair in Hk.
    destruct (derivePath _ _) as [derived|e]; [|discriminate].
    cbn [result_bind] in *. rewrite Hk. reflexivity.
Qed.

(** What the wallet module relies on: the derivation at the fixed path
    gives a key of 32 bytes, and a seed of 32 bytes has a keypair. *)
Hypothesis derivePath_solana :
  forall seedHex, exists derived,
    derivePath "m/44'/501'/0'/0'" seedHex = Ok derived /\
    length (key derived) = 32%nat.

Hypothesis Keypair_fromSeed_32 :
  forall seed, length seed = 32%nat ->
               exists keypair, Keypair_fromSeed seed = Ok keypair.

(** C4. A phrase that fails the validation of bip39 makes
    [importFromMnemonic] throw its invalid-input error, so no wallet is
    returned; a phrase that passes it is imported, and the wallet has
    the public key and the secret key of a keypair. *)
Theorem C4_import_rejects_or_succeeds (mnemonic : string) :
  (bip39_validateMnemonic mnemonic = false ->
   importFromMnemonic mnemonic = Throw (Error "Invalid mnemonic phrase")) /\
  (bip39_validateMnemonic mnemonic = true ->
   exists keypair,
     importFromMnemonic mnemonic =
     Ok {| ImportedWallet.publicKey := toBase58 (Keypair.publicKey keypair);
           ImportedWallet.secretKey := Keypair.secretKey keypair |}).
Proof.
  unfold importFromMnemonic. split; intros ->; cbn [negb]; [reflexivity|].
  destruct (derivePath_solana
              (toString_hex (bip39_mnemonicToSeedSync mnemonic)))
    as (derived & -> & Hlen).
  cbn [result_bind].
  destruct (Keypair_fromSeed_32 (key derived) Hlen) as (keypair & ->).
  exists keypair. reflexivity.
Qed.

End KeyDerivation.

(** The stand-in packages keep what the wallet module relies on. *)
Lemma sample_derivePath_solana :
  forall seedHex, exists derived,
    derivePath (WalletLibs := Sample.libs) "m/44'/501'/0'/0'" seedHex = Ok derived /\
    length (key derived) = 32%nat.
Proof.
  intros seedHex. eexists. split; [reflexivity|].
  cbn [key]. rewrite length_firstn, length_app, repeat_length. lia.
Defined.

Lemma sample_Keypair_fromSeed_32 :
  forall seed, length seed = 32%nat ->
    exists keypair, Keypair_fromSeed (WalletLibs := Sample.libs) seed = Ok keypair.
Proof.
  intros seed H. cbn. rewrite H. cbn. eexists. reflexivity.
Defined.

Lemma C1_witness :
  exists generated,
    generateWallet (libs := Sample.libs) Sample.random = Ok generated /\
    importFromMnemonic (libs := Sample.libs) (Wallet.mnemonic generated) =
    Ok {| ImportedWallet.publicKey := Wallet.publicKey generated;
          ImportedWallet.secretKey := Wallet.secretKey generated |}.
Proof.
  eexists. split.
  - vm_compute. reflexivity.
  - apply (proj2 (proj2 (C1_derivation_is_deterministic (libs := Sample.libs)))
             Sample.random).
    + vm_compute. reflexivity.
    + vm_compute. reflexivity.
Defined.

Lemma C4_witness :
  importFromMnemonic (libs := Sample.libs) "not a phrase" =
    Throw (Error "Invalid mnemonic phrase") /\
  exists keypair,
    importFromMnemonic (libs := Sample.libs) "00112233445566778899aabbccddeeff" =
    Ok {| ImportedWallet.publicKey := toBase58 (Keypair.publicKey keypair);
          ImportedWallet.secretKey := Keypair.secretKey keypair |}.
Proof.
  split.
  - apply (C4_import_rejects_or_succeeds (libs := Sample.libs)
             sample_derivePath_solana sample_Keypair_fromSeed_32
             "not a phrase").
    reflexivity.
  - apply (C4_import_rejects_or_succeeds (libs := Sample.libs)
             sample_derivePath_solana sample_Keypair_fromSeed_32
             "00112233445566778899aabbccddeeff").
    reflexivity.
Defined.

(** ** Platform client *)

Section ClientProperties.

Context `{libs : WalletLibs} `{num : JS.Number}.

Import AIONClient.

Local Open Scope string_scope.

(** The error of the client for a response that is not ok. *)
Definition api_error (status : N) : exn :=
  Error ("API error: " ++ decimal status).

(** The verification message for a claim code. *)
Definition verification_message (code : string) : string :=
  "Claiming my $AION tokens!" ++ LF ++ LF ++
  "Verification: " ++ code ++ LF ++ LF ++
  "www.aionworld.cloud".

(** The state after one request that left the client object as it was. *)
Definition after_request (request : Net.Request) (s : state) : state :=
  {| this := this s; network := Net.record request (network s) |}.

Ltac run :=
  unfold bind, ret, read, lift, throw, fetch, response_json, check_ok,
    set_claimCode, set_wallet; cbn.

Lemma decimal_inj a b : decimal a = decimal b -> a = b.
Proof.
  unfold decimal. intros H. apply DecimalN.Unsigned.to_uint_inj.
  pose proof (NilEmpty.usu (N.to_uint a)) as Ha.
  pose proof (NilEmpty.usu (N.to_uint b)) as Hb.
  rewrite H in Ha. congruence.
Qed.

Lemma api_error_inj a b : api_error a = api_error b -> a = b.
Proof.
  unfold api_error. cbn. intros [= H]. apply decimal_inj, H.
Qed.

(** *** setWalletAddress *)

Lemma validateAddress_total address :
  exists b, validateAddress address = Ok b.
Proof.
  unfold validateAddress.
  destruct (validateAddress_try address); cbn; eauto.
Qed.

(** C8. [setWalletAddress] throws its invalid-input error, which names
    the address, exactly when [validateAddress] is false, and leaves the
    client as it was; otherwise it stores a wallet with the address as
    public key, an empty secret key and an empty mnemonic. Whatever it
    stores has an empty secret key and an empty mnemonic. *)
Theorem C8_setWalletAddress (address : string) (s : state) :
  (validateAddress address = Ok false ->
   setWalletAddress address s =
   (Throw (Error ("Invalid Solana address: " ++ address)), s)) /\
  (validateAddress address = Ok true ->
   setWalletAddress address s =
   (Ok true,
    {| this := {| username := username (this s);
                  wallet := Some (AsWallet {| Wallet.publicKey := address;
                                              Wallet.secretKey := [];
                                              Wallet.mnemonic := "" |});
                  claimCode := claimCode (this s) |};
       network := network s |})) /\
  (forall e s', setWalletAddress address s = (Throw e, s') ->
                validateAddress address = Ok false) /\
  (forall r s',
      setWalletAddress address s = (r, s') ->
      wallet (this s') = wallet (this s) \/
      exists w, wallet (this s') = Some (AsWallet w) /\
                Wallet.secretKey w = [] /\ Wallet.mnemonic w = "").
Proof.
  unfold setWalletAddress.
  destruct (validateAddress_total address) as [[] E]; rewrite E; run.
  - repeat split; try discriminate.
    intros r s' [= <- <-]. right. eexists. cbn. eauto.
  - repeat split; try discriminate.
    intros r s' [= <- <-]. left. reflexivity.
Qed.

(** *** The failure policy *)

(** [m] makes one request; when the network answers it with a response
    that is not ok, [m] throws the error with the status of the
    response, has made no other request, and has left the client object
    as it was. *)
Definition surfaces_ApiError {A} (m : M A) (s : state) : Prop :=
  exists request,
    forall response,
      Net.next (network s) request = Net.Fulfilled response ->
      Net.ok response = false ->
      m s = (Throw (api_error (Net.status response)), after_request request s).

Ltac not_ok :=
  eexists; intros response Hnext Hok; run;
  rewrite Hnext; cbn; rewrite Hok; reflexivity.

Lemma startClaim_not_ok s : surfaces_ApiError startClaim s.
Proof. unfold startClaim. not_ok. Qed.

Lemma completeClaim_not_ok postUrl walletAddress_arg s :
  surfaces_ApiError (completeClaim postUrl walletAddress_arg) s.
Proof.
  unfold completeClaim, walletAddress.
  destruct (JS.ToBoolean (JS.optional walletAddress_arg)).
  - not_ok.
  - destruct (wallet (this s)) as [w|] eqn:Hw.
    + eexists; intros response Hnext Hok; run. rewrite Hw. cbn.
      rewrite Hnext; cbn; rewrite Hok; reflexivity.
    + eexists; intros response Hnext Hok; run. rewrite Hw. cbn.
      rewrite Hnext; cbn; rewrite Hok; reflexivity.
Qed.

Lemma getBugBounties_not_ok s : surfaces_ApiError getBugBounties s.
Proof. unfold getBugBounties. not_ok. Qed.

Lemma submitBugReport_not_ok params s :
  surfaces_ApiError (submitBugReport params) s.
Proof. unfold submitBugReport, walletAddress. not_ok. Qed.

Lemma getChallenges_not_ok status_arg s :
  surfaces_ApiError (getChallenges status_arg) s.
Proof. unfold getChallenges. not_ok. Qed.

Lemma submitChallengeSolution_not_ok params s :
  surfaces_ApiError (submitChallengeSolution params) s.
Proof. unfold submitChallengeSolution. not_ok. Qed.

Lemma getMyStats_not_ok s : surfaces_ApiError getMyStats s.
Proof. unfold getMyStats. not_ok. Qed.

(** [getVerificationMessage] when it starts a claim. *)
Lemma getVerificationMessage_starts s :
  JS.ToBoolean (claimCode (this s)) = false ->
  getVerificationMessage s =
  match startClaim s with
  | (Ok _, s') =>
      (Ok (verification_message (JS.ToString (claimCode (this s')))), s')
  | (Throw e, s') => (Throw e, s')
  end.
Proof.
  intros H. unfold getVerificationMessage, bind, read, ret.
  cbn beta iota. rewrite H. cbn [negb].
  destruct (startClaim s) as [[data|e] s']; reflexivity.
Qed.

(** [getVerificationMessage] when a claim code is held. *)
Lemma getVerificationMessage_held s :
  JS.ToBoolean (claimCode (this s)) = true ->
  getVerificationMessage s =
  (Ok (verification_message (JS.ToString (claimCode (this s)))), s).
Proof.
  intros H. unfold getVerificationMessage. run. rewrite H. reflexivity.
Qed.

(** C6. Every operation of the client that goes to the network throws,
    on a response that is not ok, the API error made of the status of
    that response, after this one request and without a change to the
    client object: the claim code that [startClaim] would store is not
    stored. The status can be read back from the error. *)
Theorem C6_not_ok_is_ApiError (s : state) :
  surfaces_ApiError startClaim s /\
  (forall postUrl walletAddress_arg,
      surfaces_ApiError (completeClaim postUrl walletAddress_arg) s) /\
  (forall postUrl, surfaces_ApiError (claim postUrl) s) /\
  (JS.ToBoolean (claimCode (this s)) = false ->
   surfaces_ApiError getVerificationMessage s) /\
  surfaces_ApiError getBugBounties s /\
  (forall params, surfaces_ApiError (submitBugReport params) s) /\
  (forall status_arg, surfaces_ApiError (getChallenges status_arg) s) /\
  (forall params, surfaces_ApiError (submitChallengeSolution params) s) /\
  surfaces_ApiError getMyStats s /\
  (forall status status', api_error status = api_error status' -> status = status').
Proof.
  repeat split;
    auto using startClaim_not_ok, completeClaim_not_ok, getBugBounties_not_ok,
      submitBugReport_not_ok, getChallenges_not_ok,
      submitChallengeSolution_not_ok, getMyStats_not_ok, api_error_inj.
  - intros postUrl. apply completeClaim_not_ok.
  - intros Hfalsy.
    destruct (startClaim_not_ok s) as [request H]. exists request.
    intros response Hnext Hok.
    rewrite (getVerificationMessage_starts s Hfalsy), (H response Hnext Hok).
    reflexivity.
Qed.

(** *** The claim code and the verification message *)

(** The requests a method adds to the log. *)
Definition requests_sent {A} (m : M A) (s : state) : nat :=
  length (Net.log (network (snd (m s)))) - length (Net.log (network s)).

(** [startClaim] makes one request whatever comes of it. *)
Lemma startClaim_one_request s :
  exists request, network (snd (startClaim s)) = Net.record request (network s).
Proof.
  eexists. unfold startClaim. run.
  destruct (Net.next _ _) as [response|e]; cbn; [|reflexivity].
  destruct (Net.ok response); cbn; [|reflexivity].
  destruct (Net.json response) as [data|]; cbn; [|reflexivity].
  destruct (JS.get data "claim_code"); reflexivity.
Qed.

(** A successful [startClaim] has stored the claim code of the payload. *)
Lemma startClaim_Ok s data s' :
  startClaim s = (Ok data, s') ->
  exists code,
    JS.get data "claim_code" = Ok code /\
    claimCode (this s') = code.
Proof.
  unfold startClaim. run.
  destruct (Net.next _ _) as [response|e]; cbn; [|discriminate].
  destruct (Net.ok response); cbn; [|discriminate].
  destruct (Net.json response) as [d|]; cbn; [|discriminate].
  destruct (JS.get d "claim_code") as [code|e] eqn:Hc; cbn; [|discriminate].
  intros [= <- <-]. exists code. split; [exact Hc | reflexivity].
Qed.

Lemma ToBoolean_Str c : JS.ToBoolean (JS.Str c) = true <-> c <> "".
Proof.
  cbn. destruct (String.eqb_spec c ""); cbn; split; congruence.
Qed.

(** C5, amended. After a successful [startClaim] whose claim code is a
    string [c] that is not empty, [getVerificationMessage] returns the
    message for [c] and leaves the client and the network as they are:
    no request is made. When the stored claim code is falsy (none is
    held), [getVerificationMessage] is one [startClaim], which makes one
    request, followed by the message for the code it stored. *)
Theorem C5_verification_message :
  (forall s data s1 c,
      startClaim s = (Ok data, s1) ->
      JS.get data "claim_code" = Ok (JS.Str c) ->
      c <> "" ->
      getVerificationMessage s1 = (Ok (verification_message c), s1)) /\
  (forall s,
      JS.ToBoolean (claimCode (this s)) = false ->
      (exists request,
          network (snd (startClaim s)) = Net.record request (network s)) /\
      getVerificationMessage s =
      match startClaim s with
      | (Ok _, s') =>
          (Ok (verification_message (JS.ToString (claimCode (this s')))), s')
      | (Throw e, s') => (Throw e, s')
      end).
Proof.
  split.
  - intros s data s1 c Hs Hc Hne.
    apply startClaim_Ok in Hs as (code & Hcode & Hstored).
    rewrite Hc in Hcode. injection Hcode as <-.
    rewrite getVerificationMessage_held; rewrite Hstored.
    + reflexivity.
    + apply ToBoolean_Str, Hne.
  - intros s H. split.
    + apply startClaim_one_request.
    + apply getVerificationMessage_starts, H.
Qed.

(** C10. [getVerificationMessage] makes the request of an implicit
    [startClaim] exactly when the stored claim code is falsy: for a
    stored code of the declared type, [null] or a string, exactly when
    it is [null] or the empty string, and it makes no request
    otherwise. So after a successful [startClaim] that stored the
    empty string the next [getVerificationMessage] starts a claim
    again. *)
Theorem C10_implicit_startClaim :
  (forall s,
      requests_sent getVerificationMessage s = 1%nat <->
      JS.ToBoolean (claimCode (this s)) = false) /\
  (forall s,
      claimCode (this s) = JS.Null \/
      (exists c, claimCode (this s) = JS.Str c) ->
      (requests_sent getVerificationMessage s = 1%nat <->
       claimCode (this s) = JS.Null \/ claimCode (this s) = JS.Str "") /\
      (requests_sent getVerificationMessage s = 0%nat <->
       ~ (claimCode (this s) = JS.Null \/ claimCode (this s) = JS.Str ""))) /\
  (forall s,
      claimCode (this s) = JS.Null \/ claimCode (this s) = JS.Str "" ->
      getVerificationMessage s =
      match startClaim s with
      | (Ok _, s') =>
          (Ok (verification_message (JS.ToString (claimCode (this s')))), s')
      | (Throw e, s') => (Throw e, s')
      end) /\
  (forall s data s1,
      startClaim s = (Ok data, s1) ->
      JS.get data "claim_code" = Ok (JS.Str "") ->
      requests_sent getVerificationMessage s1 = 1%nat).
Proof.
  assert (Hfalsy : forall s,
             JS.ToBoolean (claimCode (this s)) = false ->
             requests_sent getVerificationMessage s = 1%nat).
  { intros s H. unfold requests_sent.
    rewrite (getVerificationMessage_starts s H).
    destruct (startClaim_one_request s) as [request Hr].
    destruct (startClaim s) as [[data|e] s']; cbn [snd] in *;
      rewrite Hr; cbn; rewrite length_app; cbn; lia. }
  assert (Htruthy : forall s,
             JS.ToBoolean (claimCode (this s)) = true ->
             requests_sent getVerificationMessage s = 0%nat).
  { intros s H. unfold requests_sent.
    rewrite (getVerificationMessage_held s H). cbn. lia. }
  split; [|split; [|split]].
  - intros s. destruct (JS.ToBoolean (claimCode (this s))) eqn:E.
    + rewrite (Htruthy s E). split; discriminate.
    + rewrite (Hfalsy s E). split; reflexivity.
  - intros s [Hnull|[c Hc]].
    + rewrite Hfalsy by (rewrite Hnull; reflexivity).
      split; split; auto; try discriminate. intros H. elim H. auto.
    + destruct (String.eqb_spec c "") as [->|Hne].
      * rewrite Hfalsy by (rewrite Hc; reflexivity).
        split; split; auto; try discriminate. intros H. elim H. auto.
      * rewrite Htruthy by (rewrite Hc; apply ToBoolean_Str, Hne).
        rewrite Hc.
        split; split; try discriminate; auto.
        -- intros [H|H]; [discriminate H | congruence].
        -- intros _ [H|H]; [discriminate H | congruence].
  - intros s H. apply getVerificationMessage_starts.
    destruct H as [-> | ->]; reflexivity.
  - intros s data s1 Hs Hc.
    apply startClaim_Ok in Hs as (code & Hcode & Hstored).
    apply Hfalsy. rewrite Hstored. rewrite Hc in Hcode.
    injection Hcode as <-. reflexivity.
Qed.

(** *** completeClaim *)

Definition non_empty (address : string) : option string :=
  if String.eqb address "" then None else Some address.

(** The wallet address of a claim: the argument when it is given and not
    empty, else the public key of the held wallet when there is one and
    the key is not empty, else none. *)
Definition resolved_address (walletAddress_arg : option string)
    (held : option held_wallet) : option string :=
  let of_wallet :=
    match held with
    | Some w => non_empty (held_publicKey w)
    | None => None
    end in
  match walletAddress_arg with
  | Some address =>
      match non_empty address with
      | Some a => Some a
      | None => of_wallet
      end
  | None => of_wallet
  end.

(** The payload of [completeClaim] for a resolved address. *)
Definition complete_claim_payload (name postUrl : string)
    (address : option string) : list (string * JS.value) :=
  [("action", JS.Str "complete_claim");
   ("username", JS.Str name);
   ("post_url", JS.Str postUrl)] ++
  match address with
  | Some a => [("wallet_address", JS.Str a)]
  | None => []
  end.

(** A POST of a payload, as every method that posts does it. *)
Definition post_json (input : string) (payload : list (string * JS.value))
  : M JS.value :=
  bind (fetch input (POST (JS.Obj payload)))
       (fun response =>
          bind (check_ok response) (fun _ => response_json response)).

Lemma post_json_request input payload s :
  network (snd (post_json input payload s)) =
  Net.record {| Net.input := input; Net.init := POST (JS.Obj payload) |}
             (network s).
Proof.
  unfold post_json. run.
  destruct (Net.next _ _) as [response|e]; [|reflexivity].
  cbn. destruct (Net.ok response); cbn; [|reflexivity].
  destruct (Net.json response); reflexivity.
Qed.

Lemma completeClaim_run postUrl walletAddress_arg s :
  completeClaim postUrl walletAddress_arg s =
  post_json (API_BASE ++ "/agent")
    (complete_claim_payload (username (this s)) postUrl
       (resolved_address walletAddress_arg (wallet (this s)))) s.
Proof.
  unfold completeClaim, walletAddress, resolved_address, non_empty,
    complete_claim_payload, post_json.
  destruct walletAddress_arg as [address|]; cbn [JS.optional JS.ToBoolean].
  - destruct (String.eqb address "") eqn:E; cbn [negb].
    + unfold bind, read, ret. cbn.
      destruct (wallet (this s)) as [w|]; cbn; [|reflexivity].
      destruct (String.eqb (held_publicKey w) ""); reflexivity.
    + unfold bind, read, ret. cbn. rewrite E. reflexivity.
  - unfold bind, read, ret. cbn.
    destruct (wallet (this s)) as [w|]; cbn; [|reflexivity].
    destruct (String.eqb (held_publicKey w) ""); reflexivity.
Qed.

(** C7, amended. The request of [completeClaim] carries the action, the
    user name, the post URL and, as [wallet_address], the argument when
    it is given and not empty, else the public key of the held wallet
    when there is one (and the key is not empty); with neither, the
    payload has no [wallet_address] at all. *)
Theorem C7_wallet_address_resolution (postUrl : string)
    (walletAddress_arg : option string) (s : state) :
  exists payload,
    network (snd (completeClaim postUrl walletAddress_arg s)) =
    Net.record {| Net.input := API_BASE ++ "/agent";
                  Net.init := POST (JS.Obj payload) |} (network s) /\
    JS.lookup "action" payload = JS.Str "complete_claim" /\
    JS.lookup "username" payload = JS.Str (username (this s)) /\
    JS.lookup "post_url" payload = JS.Str postUrl /\
    match resolved_address walletAddress_arg (wallet (this s)) with
    | Some address => JS.lookup "wallet_address" payload = JS.Str address
    | None => ~ In "wallet_address" (map fst payload)
    end.
Proof.
  eexists. split; [|split; [|split; [|split]]].
  - rewrite completeClaim_run. apply post_json_request.
  - reflexivity.
  - reflexivity.
  - reflexivity.
  - unfold complete_claim_payload.
    destruct (resolved_address _ _); [reflexivity|].
    cbn. intros [H|[H|[H|[]]]]; discriminate H.
Qed.

(** *** Listings *)

Lemma lookup_absent name (properties : list (string * JS.value)) :
  ~ In name (map fst properties) -> JS.lookup name properties = JS.Undefined.
Proof.
  induction properties as [|[k v] rest IH]; cbn; [reflexivity|].
  intros H. destruct (String.eqb_spec k name) as [->|Hne]; [tauto|].
  apply IH. tauto.
Qed.

(** A GET whose answer is ok and decodes to an object, followed by the
    read of one property with the empty array as default. *)
Lemma listing_run (input name : string) s response properties :
  Net.next (network s) {| Net.input := input; Net.init := None |} =
    Net.Fulfilled response ->
  Net.ok response = true ->
  Net.json response = Some (JS.Obj properties) ->
  bind (fetch input None)
    (fun response =>
       bind (check_ok response) (fun _ =>
       bind (response_json response) (fun data =>
       bind (lift (JS.get data name)) (fun listing =>
       ret (JS.or listing (JS.Arr [])))))) s =
  (Ok (JS.or (JS.lookup name properties) (JS.Arr [])),
   after_request {| Net.input := input; Net.init := None |} s).
Proof.
  intros Hnext Hok Hjson. run. rewrite Hnext. cbn. rewrite Hok. cbn.
  rewrite Hjson. reflexivity.
Qed.

(** C9. On a response that is ok and decodes to an object,
    [getBugBounties] returns the array under [categories] and
    [getChallenges] the array under [challenges], and each returns the
    empty array when the object has no such property. Without an
    argument [getChallenges] asks for the status [open]. *)
Theorem C9_listings_default_to_empty (s : state) (response : Net.Response)
    (properties : list (string * JS.value)) :
  Net.ok response = true ->
  Net.json response = Some (JS.Obj properties) ->
  (Net.next (network s)
     {| Net.input := API_BASE ++ "/bug-bounty"; Net.init := None |} =
     Net.Fulfilled response ->
   (forall categories,
       JS.lookup "categories" properties = JS.Arr categories ->
       fst (getBugBounties s) = Ok (JS.Arr categories)) /\
   (~ In "categories" (map fst properties) ->
    fst (getBugBounties s) = Ok (JS.Arr []))) /\
  (forall status,
      Net.next (network s)
        {| Net.input := API_BASE ++ "/challenges?status=" ++ status;
           Net.init := None |} = Net.Fulfilled response ->
      (forall challenges,
          JS.lookup "challenges" properties = JS.Arr challenges ->
          fst (getChallenges (Some status) s) = Ok (JS.Arr challenges)) /\
      (~ In "challenges" (map fst properties) ->
       fst (getChallenges (Some status) s) = Ok (JS.Arr []))) /\
  getChallenges None = getChallenges (Some "open") /\
  snd (getChallenges None s) =
  after_request {| Net.input := API_BASE ++ "/challenges?status=open";
                   Net.init := None |} s.
Proof.
  intros Hok Hjson. split; [|split; [|split]].
  - intros Hnext. unfold getBugBounties.
    rewrite (listing_run _ "categories" s response properties Hnext Hok Hjson).
    cbn [fst]. split.
    + intros categories ->. reflexivity.
    + intros Habsent. now rewrite lookup_absent.
  - intros status Hnext. unfold getChallenges.
    rewrite (listing_run _ "challenges" s response properties Hnext Hok Hjson).
    cbn [fst]. split.
    + intros challenges ->. reflexivity.
    + intros Habsent. now rewrite lookup_absent.
  - reflexivity.
  - unfold getChallenges. run.
    destruct (Net.next _ _) as [r|e]; [|reflexivity].
    cbn. destruct (Net.ok r); cbn; [|reflexivity].
    destruct (Net.json r) as [data|]; cbn; [|reflexivity].
    destruct (JS.get data "challenges"); reflexivity.
Qed.

End ClientProperties.

(** ** The properties at concrete inputs *)

Lemma C2_witness : validateAddress Sample.system_program = Ok true.
Proof.
  destruct (C2_validateAddress_policy Sample.system_program)
    as (b & E & Hb & _).
  rewrite E. f_equal. apply Hb. split; [|split].
  - cbn. lia.
  - intros c Hc. apply Base58Facts.class_ALPHABET.
    cbn in Hc. repeat (destruct Hc as [<-|Hc]; [reflexivity|]). destruct Hc.
  - eexists. split; vm_compute; reflexivity.
Defined.

Lemma C3_witness :
  validateAddress (Base58.encode (repeat xff 32)) = Ok true /\
  validateAddress "InvalidAddress123" = Ok false.
Proof.
  split.
  - apply (proj1 C3_encoded_key_is_valid). reflexivity.
  - apply (proj2 C3_encoded_key_is_valid). left. cbn. lia.
Defined.

Lemma C5_witness :
  exists data s1,
    AIONClient.startClaim (Sample.fresh 200 (Sample.claim_started "AION-7F3K")) =
      (Ok data, s1) /\
    AIONClient.getVerificationMessage s1 =
      (Ok "Claiming my $AION tokens!

Verification: AION-7F3K

www.aionworld.cloud", s1).
Proof.
  eexists. eexists. split.
  - reflexivity.
  - apply (proj1 (C5_verification_message (num := Sample.num))
             (Sample.fresh 200 (Sample.claim_started "AION-7F3K"))
             (Sample.claim_started "AION-7F3K") _ "AION-7F3K").
    + reflexivity.
    + reflexivity.
    + discriminate.
Defined.

(** C5 as stated fails for the empty claim code: after a successful
    [startClaim] that returned it, [getVerificationMessage] makes a
    request. *)
Lemma C5_counterexample :
  exists data s1,
    AIONClient.startClaim (Sample.fresh 200 (Sample.claim_started "")) =
      (Ok data, s1) /\
    JS.get data "claim_code" = Ok (JS.Str "") /\
    requests_sent AIONClient.getVerificationMessage s1 = 1%nat /\
    AIONClient.getVerificationMessage s1 <> (Ok (verification_message ""), s1).
Proof.
  eexists. eexists. split; [reflexivity|]. split; [reflexivity|].
  split; [reflexivity|].
  intros H.
  apply (f_equal (fun p => length (Net.log (AIONClient.network (snd p))))) in H.
  vm_compute in H. discriminate H.
Qed.

Lemma C6_witness :
  let s := Sample.fresh 503 JS.Null in
  exists request,
    AIONClient.startClaim s =
    (Throw (Error "API error: 503"), after_request request s) /\
    AIONClient.claimCode (AIONClient.this (after_request request s)) = JS.Null.
Proof.
  intros s.
  destruct (proj1 (C6_not_ok_is_ApiError (num := Sample.num) s))
    as [request H].
  exists request. split; [|reflexivity].
  apply (H {| Net.status := 503; Net.json := Some JS.Null |}); reflexivity.
Defined.

Lemma C7_witness :
  exists payload,
    Net.log (AIONClient.network
               (snd (AIONClient.completeClaim "https://moltbook.com/post/1"
                       None Sample.with_system_program))) =
    [{| Net.input := "https://www.aionworld.cloud/api/agent";
        Net.init := AIONClient.POST (JS.Obj payload) |}] /\
    JS.lookup "wallet_address" payload = JS.Str Sample.system_program.
Proof.
  destruct (C7_wallet_address_resolution (num := Sample.num)
              "https://moltbook.com/post/1" None Sample.with_system_program)
    as (payload & Hnet & _ & _ & _ & Haddress).
  exists payload. split.
  - rewrite Hnet. reflexivity.
  - exact Haddress.
Defined.

(** C7 as stated fails for the empty string as argument: the request
    carries the address of the held wallet, not the argument. *)
Lemma C7_counterexample :
  exists payload,
    Net.log (AIONClient.network
               (snd (AIONClient.completeClaim "https://moltbook.com/post/1"
                       (Some "") Sample.with_system_program))) =
    [{| Net.input := "https://www.aionworld.cloud/api/agent";
        Net.init := AIONClient.POST (JS.Obj payload) |}] /\
    JS.lookup "wallet_address" payload = JS.Str Sample.system_program /\
    JS.lookup "wallet_address" payload <> JS.Str "".
Proof.
  eexists. split; [reflexivity|]. split; [reflexivity|]. discriminate.
Qed.

Lemma C8_witness :
  let s := Sample.fresh 200 JS.Null in
  AIONClient.setWalletAddress "not-base58!!" s =
    (Throw (Error "Invalid Solana address: not-base58!!"), s) /\
  AIONClient.wallet
    (AIONClient.this (snd (AIONClient.setWalletAddress Sample.system_program s))) =
  Some (AIONClient.AsWallet {| Wallet.publicKey := Sample.system_program;
                               Wallet.secretKey := [];
                               Wallet.mnemonic := "" |}).
Proof.
  intros s. split.
  - apply (proj1 (C8_setWalletAddress (num := Sample.num) "not-base58!!" s)).
    reflexivity.
  - rewrite (proj1 (proj2 (C8_setWalletAddress (num := Sample.num)
                             Sample.system_program s))
               ltac:(vm_compute; reflexivity)).
    reflexivity.
Defined.

Lemma C9_witness :
  let s := Sample.fresh 200 (JS.Obj [("success", JS.Bool true)]) in
  fst (AIONClient.getBugBounties s) = Ok (JS.Arr []) /\
  fst (AIONClient.getChallenges (Some "solved") s) = Ok (JS.Arr []).
Proof.
  intros s.
  pose proof (C9_listings_default_to_empty (num := Sample.num) s
                {| Net.status := 200;
                   Net.json := Some (JS.Obj [("success", JS.Bool true)]) |}
                [("success", JS.Bool true)] eq_refl eq_refl)
    as (Hbounties & Hchallenges & _).
  split.
  - apply (proj2 (Hbounties eq_refl)).
    cbn. intros [H|[]]. discriminate H.
  - apply (proj2 (Hchallenges "solved" eq_refl)).
    cbn. intros [H|[]]. discriminate H.
Defined.

Lemma C10_witness :
  requests_sent AIONClient.getVerificationMessage
    (Sample.fresh 200 (Sample.claim_started "AION-7F3K")) = 1%nat.
Proof.
  apply (proj1 (proj2 (C10_implicit_startClaim (num := Sample.num)))
           (Sample.fresh 200 (Sample.claim_started "AION-7F3K"))).
  - left. reflexivity.
  - left. reflexivity.
Defined.

(** * Further properties *)

(** ** Base58: from a text back to the same text *)
Module Base58Inverse.

Import Base58 Numeral Base58Facts.
Local Open Scope N_scope.

Lemma charAt_BASE_MAP c : base58_class c = true -> charAt (BASE_MAP c) = c.
Proof. each_char c; vm_compute; intros H; try discriminate H; reflexivity. Qed.

Lemma BASE_MAP_class_below c : base58_class c = true -> BASE_MAP c < BASE.
Proof. each_char c; vm_compute; intros H; try discriminate H; reflexivity. Qed.

Lemma BASE_MAP_zero c :
  base58_class c = true -> BASE_MAP c = 0 -> Ascii.eqb c LEADER = true.
Proof.
  each_char c; vm_compute; intros H E;
    try discriminate H; try discriminate E; reflexivity.
Qed.

(** The digits a text over the alphabet stands for. *)
Definition digits_of (s : string) : list N :=
  map BASE_MAP (list_ascii_of_string s).

Lemma digits_of_below s :
  all_chars base58_class s = true -> digits_below BASE (digits_of s).
Proof.
  unfold digits_of.
  induction s as [|c s IH]; cbn [all_chars list_ascii_of_string map];
    intros H; [constructor|].
  apply andb_true_iff in H as [Hc Hs].
  constructor; [apply BASE_MAP_class_below, Hc | apply IH, Hs].
Qed.

Lemma digit_string_digits_of s :
  all_chars base58_class s = true -> digit_string (digits_of s) = s.
Proof.
  unfold digit_string, digits_of.
  induction s as [|c s IH];
    cbn [all_chars list_ascii_of_string map string_of_list_ascii];
    intros H; [reflexivity|].
  apply andb_true_iff in H as [Hc Hs].
  now rewrite charAt_BASE_MAP, IH.
Qed.

(** What [leading_leaders] splits off. *)
Lemma leading_leaders_spec s :
  let (zeroes, rest) := leading_leaders s in
  s = repeat_leader zeroes rest /\
  match rest with
  | String c _ => Ascii.eqb c LEADER = false
  | EmptyString => True
  end.
Proof.
  induction s as [|c s IH]; cbn [leading_leaders]; [split; [reflexivity|exact I]|].
  destruct (Ascii.eqb c LEADER) eqn:E.
  - destruct (leading_leaders s) as [zeroes rest]. destruct IH as [-> Hrest].
    split; [|exact Hrest]. cbn. apply Ascii.eqb_eq in E. now subst c.
  - split; [reflexivity | exact E].
Qed.

Lemma leading_zero_bytes_repeat zeroes (digits : list N) :
  digits_below 256 digits -> hd_error digits <> Some 0 ->
  leading_zero_bytes (repeat x00 zeroes ++ map byte_of_digit digits) =
  (zeroes, map byte_of_digit digits).
Proof.
  intros Hb Hhd. induction zeroes as [|z IH].
  - cbn [repeat app]. destruct digits as [|d ds]; [reflexivity|].
    cbn [map leading_zero_bytes].
    inversion Hb as [|? ? Hd _]; subst.
    assert (E : Byte.to_N (byte_of_digit d) = d).
    { unfold byte_of_digit. destruct (Byte.of_N d) as [b|] eqn:Eb.
      - apply Byte.to_of_N, Eb.
      - apply Byte.of_N_None_iff in Eb. lia. }
    rewrite E. destruct (N.eqb_spec d 0) as [->|_]; [|reflexivity].
    cbn in Hhd. congruence.
  - cbn [repeat app leading_zero_bytes]. cbn [Byte.to_N N.eqb].
    now rewrite IH.
Qed.

Lemma to_N_byte_of_digit (digits : list N) :
  digits_below 256 digits ->
  map Byte.to_N (map byte_of_digit digits) = digits.
Proof.
  induction 1 as [|d ds Hd Hds IH]; [reflexivity|].
  cbn [map]. rewrite IH. f_equal.
  unfold byte_of_digit. destruct (Byte.of_N d) as [b|] eqn:Eb.
  - apply Byte.to_of_N, Eb.
  - apply Byte.of_N_None_iff in Eb. lia.
Qed.

(** Encoding what a text over the alphabet decodes to gives the text. *)
Lemma encode_decode s decoded :
  all_chars base58_class s = true ->
  decode s = Ok decoded -> encode decoded = s.
Proof.
  intros Hs. unfold decode, decodeUnsafe.
  pose proof (leading_leaders_spec s) as Hl.
  pose proof (leading_leaders_suffix _ _ Hs) as Hrest.
  destruct (leading_leaders s) as [zeroes rest]. cbn [snd] in Hrest.
  destruct Hl as [Hsplit Hhead].
  pose proof (digits_of_below rest Hrest) as HD.
  pose proof (digit_string_digits_of rest Hrest) as Hstr.
  destruct (decode_loop_digits (digits_of rest) [] HD ltac:(constructor))
    as (b256 & E & V & B).
  unfold digit_string in Hstr. rewrite Hstr in E. rewrite E.
  intros [= <-]. rewrite horner_0 in V.
  set (X := skip_zeros (rev b256)).
  assert (HX : digits_below 256 X)
    by (apply skip_zeros_below, Forall_rev, B).
  unfold encode.
  rewrite (leading_zero_bytes_repeat zeroes X HX (skip_zeros_head _)).
  replace (skip_zeros (rev (encode_loop (map byte_of_digit X) [])))
    with (digits_of rest).
  - fold (digit_string (digits_of rest)).
    rewrite digit_string_digits_of by exact Hrest. now rewrite Hsplit.
  - rewrite <- (rev_involutive (digits_of rest)).
    rewrite <- (rev_involutive (skip_zeros _)). f_equal.
    apply (canonical_unique BASE); try reflexivity.
    + apply Forall_rev, HD.
    + apply Forall_rev, skip_zeros_below, Forall_rev, encode_loop_below.
      constructor.
    + apply canonical_rev_hd. unfold digits_of.
      destruct rest as [|c rest']; [discriminate|].
      cbn. intros [= H0]. cbn in Hrest.
      apply andb_true_iff in Hrest as [Hc _].
      rewrite (BASE_MAP_zero c Hc H0) in Hhead. discriminate.
    + apply canonical_rev_skip_zeros.
    + rewrite value_rev_skip_zeros, rev_involutive, encode_loop_value.
      rewrite to_N_byte_of_digit by exact HX.
      rewrite horner_0. unfold X.
      rewrite value_rev_skip_zeros, rev_involutive. cbn [value] in V |- *.
      cbn in V. congruence.
Qed.

Lemma decode_loop_fails s b256 :
  all_chars base58_class s = false -> decode_loop s b256 = None.
Proof.
  revert b256. induction s as [|c s IH]; intros b256 H;
    cbn [all_chars] in H; [discriminate|].
  cbn [decode_loop]. rewrite class_BASE_MAP in H.
  destruct (BASE_MAP c =? 255); [reflexivity|].
  cbn [negb andb] in H. apply IH, H.
Qed.

Lemma leading_leaders_suffix_false s :
  all_chars base58_class s = false ->
  all_chars base58_class (snd (leading_leaders s)) = false.
Proof.
  induction s as [|c s IH]; intros H; [exact H|].
  cbn [leading_leaders]. destruct (Ascii.eqb c LEADER) eqn:E; [|exact H].
  apply Ascii.eqb_eq in E. subst c. cbn [all_chars] in H.
  replace (base58_class LEADER) with true in H by reflexivity.
  specialize (IH H). destruct (leading_leaders s). exact IH.
Qed.

(** The decoder throws on a text with a character outside the alphabet. *)
Lemma decode_fails s :
  all_chars base58_class s = false ->
  decode s = Throw (Error "Non-base58 character").
Proof.
  intros H. unfold decode, decodeUnsafe.
  pose proof (leading_leaders_suffix_false s H) as Hr.
  destruct (leading_leaders s) as [zeroes rest]. cbn [snd] in Hr.
  now rewrite decode_loop_fails.
Qed.

End Base58Inverse.

(** ** Wallet module: addresses and secret keys *)

Lemma validateAddress_encode_32 (bytes : list byte) :
  length bytes = 32%nat -> validateAddress (Base58.encode bytes) = Ok true.
Proof.
  intros Hlen.
  destruct (Base58Facts.encode_length_32 bytes Hlen) as [Hlo Hhi].
  unfold validateAddress, validateAddress_try.
  destruct (Nat.ltb_spec (String.length (Base58.encode bytes)) 32); [lia|].
  destruct (Nat.ltb_spec 44 (String.length (Base58.encode bytes))); [lia|].
  cbn [orb].
  assert (Hre : base58Regex_test (Base58.encode bytes) = true).
  { unfold base58Regex_test.
    destruct (Base58.encode bytes) eqn:E; [cbn in Hlo; lia|].
    rewrite <- E. apply Base58Facts.encode_chars. }
  rewrite Hre, Base58Facts.decode_encode. cbn. now rewrite Hlen.
Qed.

Lemma validateAddress_true address :
  validateAddress address = Ok true ->
  (32 <= String.length address <= 44)%nat /\
  all_chars base58_class address = true /\
  exists decoded,
    Base58.decode address = Ok decoded /\ length decoded = 32%nat.
Proof.
  unfold validateAddress, validateAddress_try.
  destruct (Nat.ltb_spec (String.length address) 32); [discriminate|].
  destruct (Nat.ltb_spec 44 (String.length address)); [discriminate|].
  cbn [orb]. destruct (base58Regex_test address) eqn:Hre; [|discriminate].
  cbn [negb].
  destruct (Base58.decode address) as [decoded|e]; [|discriminate].
  cbn. intros [= Hl]. apply Nat.eqb_eq in Hl.
  split; [lia|]. split; [|eauto].
  unfold base58Regex_test in Hre. destruct address; [discriminate | exact Hre].
Qed.

Lemma foreign_character s :
  (exists c, In c (list_ascii_of_string s) /\
             ~ In c (list_ascii_of_string Base58.ALPHABET)) ->
  all_chars base58_class s = false.
Proof.
  intros (c & Hin & Hout).
  destruct (all_chars base58_class s) eqn:E; [|reflexivity].
  elim Hout. apply Base58Facts.class_ALPHABET.
  exact (proj1 (all_chars_spec _ _) E c Hin).
Qed.

(** X1. The addresses [validateAddress] accepts are exactly the base58
    encodings of 32 bytes, and an address is the encoding of one byte
    sequence only. *)
Theorem valid_address_is_encoded_key :
  (forall address,
      validateAddress address = Ok true <->
      exists bytes, length bytes = 32%nat /\ address = Base58.encode bytes) /\
  (forall bytes bytes' : list byte,
      Base58.encode bytes = Base58.encode bytes' -> bytes = bytes').
Proof.
  split.
  - intros address. split.
    + intros H. apply validateAddress_true in H as (_ & Hc & decoded & Hd & Hl).
      exists decoded. split; [exact Hl|].
      symmetry. apply Base58Inverse.encode_decode; assumption.
    + intros (bytes & Hl & ->). apply validateAddress_encode_32, Hl.
  - intros bytes bytes' H.
    pose proof (Base58Facts.decode_encode bytes) as E.
    rewrite H, Base58Facts.decode_encode in E. congruence.
Qed.

Section SecretKeys.

Context `{libs : WalletLibs}.

(** X2. A secret key given as its base58 text is imported as the bytes
    themselves are, and [getPublicKey] gives the public key of that
    import, or throws what it throws. *)
Theorem importFromSecretKey_forms (secretKey : list byte) :
  importFromSecretKey (Base58String (Base58.encode secretKey)) =
  importFromSecretKey (RawBytes secretKey) /\
  getPublicKey secretKey =
  match importFromSecretKey (RawBytes secretKey) with
  | Ok w => Ok (ImportedWallet.publicKey w)
  | Throw e => Throw e
  end.
Proof.
  unfold importFromSecretKey, getPublicKey.
  rewrite Base58Facts.decode_encode. cbn [result_bind]. split; [reflexivity|].
  destruct (Keypair_fromSecretKey secretKey); reflexivity.
Qed.

(** X3. On a text with a character outside the base58 alphabet
    [importFromSecretKey] throws the error of the decoder: unlike
    [validateAddress] it does not catch it. *)
Theorem importFromSecretKey_rejects_text (secretKey : string) :
  (exists c, In c (list_ascii_of_string secretKey) /\
             ~ In c (list_ascii_of_string Base58.ALPHABET)) ->
  importFromSecretKey (Base58String secretKey) =
    Throw (Error "Non-base58 character") /\
  validateAddress secretKey = Ok false.
Proof.
  intros H. apply foreign_character in H. split.
  - unfold importFromSecretKey.
    now rewrite (Base58Inverse.decode_fails secretKey H).
  - apply validateAddress_regex. unfold base58Regex_test.
    destruct secretKey; [reflexivity | exact H].
Qed.

(** What the wallet module relies on for its addresses: the public key
    of a keypair has 32 bytes. *)
Hypothesis fromSeed_publicKey_32 :
  forall seed keypair,
    Keypair_fromSeed seed = Ok keypair ->
    length (Keypair.publicKey keypair) = 32%nat.

Hypothesis fromSecretKey_publicKey_32 :
  forall secretKey keypair,
    Keypair_fromSecretKey secretKey = Ok keypair ->
    length (Keypair.publicKey keypair) = 32%nat.

(** X4. Every public key string the wallet module returns, from
    [generateWallet], [importFromMnemonic], [importFromSecretKey] or
    [getPublicKey], is an address that [validateAddress] accepts. *)
Theorem returned_addresses_are_valid :
  (forall random w,
      generateWallet random = Ok w ->
      validateAddress (Wallet.publicKey w) = Ok true) /\
  (forall mnemonic w,
      importFromMnemonic mnemonic = Ok w ->
      validateAddress (ImportedWallet.publicKey w) = Ok true) /\
  (forall secretKey w,
      importFromSecretKey secretKey = Ok w ->
      validateAddress (ImportedWallet.publicKey w) = Ok true) /\
  (forall secretKey publicKey,
      getPublicKey secretKey = Ok publicKey ->
      validateAddress publicKey = Ok true).
Proof.
  split; [|split; [|split]].
  - intros random w H. unfold generateWallet in H.
    destruct (derivePath _ _) as [derived|e]; [|discriminate].
    cbn [result_bind] in H.
    destruct (Keypair_fromSeed _) as [keypair|e] eqn:Hk; [|discriminate].
    injection H as <-. cbn. apply validateAddress_encode_32.
    eapply fromSeed_publicKey_32, Hk.
  - intros mnemonic w H. unfold importFromMnemonic in H.
    destruct (bip39_validateMnemonic mnemonic); [|discriminate].
    cbn [negb] in H.
    destruct (derivePath _ _) as [derived|e]; [|discriminate].
    cbn [result_bind] in H.
    destruct (Keypair_fromSeed _) as [keypair|e] eqn:Hk; [|discriminate].
    injection H as <-. cbn. apply validateAddress_encode_32.
    eapply fromSeed_publicKey_32, Hk.
  - intros secretKey w H. unfold importFromSecretKey in H.
    destruct secretKey as [bytes|text].
    + destruct (Keypair_fromSecretKey bytes) as [keypair|e] eqn:Hk;
        [|discriminate].
      injection H as <-. cbn. apply validateAddress_encode_32.
      eapply fromSecretKey_publicKey_32, Hk.
    + destruct (Base58.decode text) as [decoded|e]; [|discriminate].
      cbn [result_bind] in H.
      destruct (Keypair_fromSecretKey decoded) as [keypair|e] eqn:Hk;
        [|discriminate].
      injection H as <-. cbn. apply validateAddress_encode_32.
      eapply fromSecretKey_publicKey_32, Hk.
  - intros secretKey publicKey H. unfold getPublicKey in H.
    destruct (Keypair_fromSecretKey secretKey) as [keypair|e] eqn:Hk;
      [|discriminate].
    injection H as <-. apply validateAddress_encode_32.
    eapply fromSecretKey_publicKey_32, Hk.
Qed.

End SecretKeys.

(** ** Platform client: the wallet, the claim and the requests *)

Section ClientExtras.

Context `{libs : WalletLibs} `{num : JS.Number}.

Import AIONClient.

Local Open Scope string_scope.

Ltac step :=
  unfold bind, ret, read, lift, throw, fetch, response_json, check_ok,
    set_claimCode, set_wallet; cbn.

Lemma valid_address_not_empty address :
  validateAddress address = Ok true -> String.eqb address "" = false.
Proof.
  intros H. apply validateAddress_true in H as (Hl & _).
  destruct address; [cbn in Hl; lia | reflexivity].
Qed.

(** The request of [startClaim]. *)
Definition start_claim_request (name : string) : Net.Request :=
  {| Net.input := API_BASE ++ "/agent";
     Net.init := POST (JS.Obj [("action", JS.Str "start_claim");
                               ("username", JS.Str name)]) |}.

(** X5. [startClaim] makes one request, the POST of the action and the
    user name. When it throws, for whatever reason (a failed fetch, a
    response that is not ok, a body that is not JSON, a [null]
    payload), the client object is as before. When it returns, only the
    claim code has changed: it is the [claim_code] of the payload,
    whatever was stored before. *)
Theorem startClaim_is_atomic (s : state) :
  match startClaim s with
  | (Ok data, s') =>
      exists code,
        JS.get data "claim_code" = Ok code /\
        s' = {| this := {| username := username (this s);
                           wallet := wallet (this s);
                           claimCode := code |};
                network := Net.record (start_claim_request (username (this s)))
                                      (network s) |}
  | (Throw e, s') =>
      s' = after_request (start_claim_request (username (this s))) s
  end.
Proof.
  unfold startClaim, start_claim_request. step.
  destruct (Net.next _ _) as [response|e]; cbn; [|reflexivity].
  destruct (Net.ok response); cbn; [|reflexivity].
  destruct (Net.json response) as [data|]; cbn; [|reflexivity].
  destruct (JS.get data "claim_code") as [code|e] eqn:E; cbn; [|reflexivity].
  exists code. split; [exact E | reflexivity].
Qed.

(** [m] makes one request and leaves the client object as it is,
    whatever the outcome. *)
Definition one_request_only {A} (m : M A) (s : state) : Prop :=
  exists request, snd (m s) = after_request request s.

Ltac one_request :=
  eexists; step;
  destruct (Net.next _ _) as [?response|?e]; cbn; [|reflexivity];
  destruct (Net.ok _); cbn; [|reflexivity];
  destruct (Net.json _) as [?data|]; cbn; [|reflexivity];
  try (destruct (JS.get _ _)); reflexivity.

(** X6. The calls of the platform API other than [startClaim] never
    change the client object, and make exactly one request, whether
    they return or throw. *)
Theorem api_calls_leave_the_client (s : state) :
  (forall postUrl walletAddress_arg,
      one_request_only (completeClaim postUrl walletAddress_arg) s) /\
  (forall postUrl, one_request_only (claim postUrl) s) /\
  one_request_only getBugBounties s /\
  (forall params, one_request_only (submitBugReport params) s) /\
  (forall status_arg, one_request_only (getChallenges status_arg) s) /\
  (forall params, one_request_only (submitChallengeSolution params) s) /\
  one_request_only getMyStats s.
Proof.
  assert (Hc : forall postUrl walletAddress_arg,
             one_request_only (completeClaim postUrl walletAddress_arg) s).
  { intros postUrl walletAddress_arg. unfold one_request_only.
    rewrite completeClaim_run. unfold post_json. one_request. }
  repeat split; try exact Hc.
  - intros postUrl. apply Hc.
  - unfold getBugBounties. one_request.
  - intros params. unfold submitBugReport, walletAddress. one_request.
  - intros status_arg. unfold getChallenges. one_request.
  - intros params. unfold submitChallengeSolution. one_request.
  - unfold getMyStats. one_request.
Qed.

(** [m] makes one request; a failed fetch is thrown on as it is, and
    an ok response whose body is not JSON gives a [SyntaxError]; in both
    cases the client object is as before. *)
Definition propagates_failure {A} (m : M A) (s : state) : Prop :=
  exists request,
    (forall e,
        Net.next (network s) request = Net.Rejected e ->
        m s = (Throw e, after_request request s)) /\
    (forall response,
        Net.next (network s) request = Net.Fulfilled response ->
        Net.ok response = true ->
        Net.json response = None ->
        m s = (Throw SyntaxError, after_request request s)).

Ltac failure :=
  eexists; split;
  [ intros e Hnext; step; rewrite Hnext; reflexivity
  | intros response Hnext Hok Hjson; step; rewrite Hnext; cbn;
    rewrite Hok; cbn; rewrite Hjson; reflexivity ].

Lemma startClaim_failure s : propagates_failure startClaim s.
Proof. unfold startClaim. failure. Qed.

(** X7. Every method that goes to the network throws on what a failed
    [fetch] threw, and throws a [SyntaxError] when an ok response has a
    body that is not JSON; it has then made its one request and left
    the client object, the claim code included, as it was. *)
Theorem network_failures_propagate (s : state) :
  propagates_failure startClaim s /\
  (forall postUrl walletAddress_arg,
      propagates_failure (completeClaim postUrl walletAddress_arg) s) /\
  (JS.ToBoolean (claimCode (this s)) = false ->
   propagates_failure getVerificationMessage s) /\
  propagates_failure getBugBounties s /\
  (forall params, propagates_failure (submitBugReport params) s) /\
  (forall status_arg, propagates_failure (getChallenges status_arg) s) /\
  (forall params, propagates_failure (submitChallengeSolution params) s) /\
  propagates_failure getMyStats s.
Proof.
  split; [apply startClaim_failure|].
  split.
  { intros postUrl walletAddress_arg. unfold propagates_failure.
    rewrite completeClaim_run. unfold post_json. failure. }
  split.
  { intros Hfalsy. destruct (startClaim_failure s) as (request & Hr & Hj).
    exists request. rewrite (getVerificationMessage_starts s Hfalsy). split.
    - intros e Hnext. now rewrite (Hr e Hnext).
    - intros response Hnext Hok Hjson.
      now rewrite (Hj response Hnext Hok Hjson). }
  split; [unfold getBugBounties; failure|].
  split; [intros params; unfold submitBugReport, walletAddress; failure|].
  split; [intros status_arg; unfold getChallenges; failure|].
  split; [intros params; unfold submitChallengeSolution; failure|].
  unfold getMyStats; failure.
Qed.

(** What a listing method makes of a decoded payload: a [TypeError] on
    [null], the property when it is truthy, else the empty array. *)
Definition listing_of (data : JS.value) (name : string) : result JS.value :=
  match data with
  | JS.Undefined | JS.Null => Throw TypeError
  | JS.Obj properties =>
      Ok (if JS.ToBoolean (JS.lookup name properties)
          then JS.lookup name properties
          else JS.Arr [])
  | _ => Ok (JS.Arr [])
  end.

(** X8. On an ok response with a JSON body [getBugBounties] and
    [getChallenges] throw a [TypeError] when the payload is [null];
    they return the empty array when the payload is not an object or
    when the property is absent or falsy ([null], [false], [0], the
    empty string); and they return a truthy property as it is, array or
    not. *)
Theorem listing_edge_cases (s : state) (response : Net.Response)
    (data : JS.value) :
  Net.ok response = true ->
  Net.json response = Some data ->
  (Net.next (network s)
     {| Net.input := API_BASE ++ "/bug-bounty"; Net.init := None |} =
     Net.Fulfilled response ->
   fst (getBugBounties s) = listing_of data "categories") /\
  (forall status,
      Net.next (network s)
        {| Net.input := API_BASE ++ "/challenges?status=" ++ status;
           Net.init := None |} = Net.Fulfilled response ->
      fst (getChallenges (Some status) s) = listing_of data "challenges").
Proof.
  intros Hok Hjson. split.
  - intros Hnext. unfold getBugBounties. step. cbn in Hnext.
    rewrite Hnext. cbn.
    rewrite Hok. cbn. rewrite Hjson. cbn. destruct data; reflexivity.
  - intros status Hnext. unfold getChallenges. step. cbn in Hnext.
    rewrite Hnext. cbn.
    rewrite Hok. cbn. rewrite Hjson. cbn. destruct data; reflexivity.
Qed.

(** X9. [completeClaim], [submitBugReport], [submitChallengeSolution]
    and [getMyStats] return the decoded payload of an ok response as it
    is, whatever its shape. *)
Theorem payload_is_returned_as_is (s : state) (response : Net.Response)
    (data : JS.value) :
  (forall request, Net.next (network s) request = Net.Fulfilled response) ->
  Net.ok response = true ->
  Net.json response = Some data ->
  (forall postUrl walletAddress_arg,
      fst (completeClaim postUrl walletAddress_arg s) = Ok data) /\
  (forall params, fst (submitBugReport params s) = Ok data) /\
  (forall params, fst (submitChallengeSolution params s) = Ok data) /\
  fst (getMyStats s) = Ok data.
Proof.
  intros Hnext Hok Hjson. repeat split.
  - intros postUrl walletAddress_arg. rewrite completeClaim_run.
    unfold post_json. step. rewrite Hnext. cbn. rewrite Hok. cbn.
    rewrite Hjson. reflexivity.
  - intros params. unfold submitBugReport, walletAddress. step.
    rewrite Hnext. cbn. rewrite Hok. cbn. rewrite Hjson. reflexivity.
  - intros params. unfold submitChallengeSolution. step.
    rewrite Hnext. cbn. rewrite Hok. cbn. rewrite Hjson. reflexivity.
  - unfold getMyStats. step.
    rewrite Hnext. cbn. rewrite Hok. cbn. rewrite Hjson. reflexivity.
Qed.

(** X10. Once [getVerificationMessage] has returned with a truthy claim
    code stored, calling it again returns the same message and makes no
    request. *)
Theorem getVerificationMessage_is_stable (s s' : state) (message : string) :
  getVerificationMessage s = (Ok message, s') ->
  JS.ToBoolean (claimCode (this s')) = true ->
  getVerificationMessage s' = (Ok message, s').
Proof.
  intros H Hheld. rewrite (getVerificationMessage_held s' Hheld).
  destruct (JS.ToBoolean (claimCode (this s))) eqn:E.
  - rewrite (getVerificationMessage_held s E) in H. congruence.
  - rewrite (getVerificationMessage_starts s E) in H.
    destruct (startClaim s) as [[data|e] s1]; [|discriminate].
    congruence.
Qed.

Lemma length_append (a b : string) :
  String.length (a ++ b) = (String.length a + String.length b)%nat.
Proof. induction a as [|c a IH]; cbn; congruence. Qed.

Lemma append_inj_l (p a b : string) : p ++ a = p ++ b -> a = b.
Proof. induction p as [|c p IH]; cbn; [auto | intros [= H]; auto]. Qed.

Lemma append_inj_r (a b tail : string) : a ++ tail = b ++ tail -> a = b.
Proof.
  revert b. induction a as [|c a IH]; intros [|d b] H; cbn in H.
  - reflexivity.
  - apply (f_equal String.length) in H. cbn in H.
    rewrite length_append in H. lia.
  - apply (f_equal String.length) in H. cbn in H.
    rewrite length_append in H. lia.
  - injection H as -> H. f_equal. apply IH, H.
Qed.

Lemma verification_message_inj c c' :
  verification_message c = verification_message c' -> c = c'.
Proof.
  change (verification_message c) with
    (("Claiming my $AION tokens!" ++ LF ++ LF ++ "Verification: ") ++
     (c ++ (LF ++ LF ++ "www.aionworld.cloud"))).
  change (verification_message c') with
    (("Claiming my $AION tokens!" ++ LF ++ LF ++ "Verification: ") ++
     (c' ++ (LF ++ LF ++ "www.aionworld.cloud"))).
  intros H. apply append_inj_l in H. apply append_inj_r in H. exact H.
Qed.

(** X11. The verification message determines the claim code: two
    clients that hold claim codes (strings, not empty) and get the same
    message hold the same code. *)
Theorem message_determines_claim_code (s1 s2 : state) (c1 c2 message : string) :
  claimCode (this s1) = JS.Str c1 -> c1 <> "" ->
  claimCode (this s2) = JS.Str c2 -> c2 <> "" ->
  fst (getVerificationMessage s1) = Ok message ->
  fst (getVerificationMessage s2) = Ok message ->
  c1 = c2.
Proof.
  intros H1 N1 H2 N2 M1 M2.
  rewrite getVerificationMessage_held in M1
    by (rewrite H1; apply ToBoolean_Str, N1).
  rewrite getVerificationMessage_held in M2
    by (rewrite H2; apply ToBoolean_Str, N2).
  rewrite H1 in M1. rewrite H2 in M2. cbn [fst JS.ToString] in *.
  apply verification_message_inj. congruence.
Qed.

(** X12. When no claim code is held and the platform answers the
    implicit [startClaim] with an object that has no [claim_code],
    [getVerificationMessage] returns the message with the text
    [undefined] in the place of the code, and the stored code is
    [undefined], so that the next call starts a claim again. *)
Theorem missing_claim_code_is_undefined (s : state) (response : Net.Response)
    (properties : list (string * JS.value)) :
  JS.ToBoolean (claimCode (this s)) = false ->
  Net.next (network s) (start_claim_request (username (this s))) =
    Net.Fulfilled response ->
  Net.ok response = true ->
  Net.json response = Some (JS.Obj properties) ->
  ~ In "claim_code" (map fst properties) ->
  exists s',
    getVerificationMessage s = (Ok (verification_message "undefined"), s') /\
    claimCode (this s') = JS.Undefined /\
    requests_sent getVerificationMessage s' = 1%nat.
Proof.
  intros Hfalsy Hnext Hok Hjson Habsent.
  assert (Hs : startClaim s =
    (Ok (JS.Obj properties),
     {| this := {| username := username (this s);
                   wallet := wallet (this s);
                   claimCode := JS.Undefined |};
        network := Net.record (start_claim_request (username (this s)))
                              (network s) |})).
  { unfold startClaim. unfold start_claim_request in Hnext. step.
    cbn in Hnext. rewrite Hnext. cbn. rewrite Hok. cbn. rewrite Hjson. cbn.
    rewrite (lookup_absent _ _ Habsent). reflexivity. }
  eexists. split; [|split].
  - rewrite (getVerificationMessage_starts s Hfalsy), Hs. reflexivity.
  - reflexivity.
  - unfold requests_sent.
    rewrite getVerificationMessage_starts by reflexivity.
    match goal with
    | |- context [startClaim ?st] =>
        destruct (startClaim_one_request st) as [request Hr];
        destruct (startClaim st) as [[d|e] s2]
    end; cbn [snd] in *; rewrite Hr; cbn; rewrite length_app; cbn; lia.
Qed.

Lemma upper_hex_digit_unreserved d :
  (d < 16)%N -> URI.unreserved (URI.upper_hex_digit d) = true.
Proof.
  apply (Base58Facts.below_forallb 16
           (fun d => URI.unreserved (URI.upper_hex_digit d))).
  vm_compute. reflexivity.
Qed.

Lemma escape_chars octet tail c :
  (octet < 256)%N ->
  In c (list_ascii_of_string (URI.escape octet tail)) ->
  c = "%"%char \/ URI.unreserved c = true \/
  In c (list_ascii_of_string tail).
Proof.
  intros Ho. unfold URI.escape. cbn [list_ascii_of_string].
  intros [<-|[<-|[<-|H]]]; auto.
  - right. left. apply upper_hex_digit_unreserved.
    apply N.Div0.div_lt_upper_bound. lia.
  - right. left. apply upper_hex_digit_unreserved.
    apply N.mod_lt. lia.
Qed.

Lemma encodeURIComponent_chars s c :
  In c (list_ascii_of_string (URI.encodeURIComponent s)) ->
  c = "%"%char \/ URI.unreserved c = true.
Proof.
  induction s as [|a s IH]; cbn [URI.encodeURIComponent]; [intros []|].
  pose proof (N_ascii_bounded a) as Ha.
  destruct (URI.unreserved a) eqn:Eu.
  - cbn [list_ascii_of_string]. intros [<-|H]; auto.
  - destruct (N.ltb_spec (N_of_ascii a) 128) as [Hlt|Hge].
    + intros Hc. apply (escape_chars _ _ _ Ha) in Hc as [Hc|[Hc|Hc]]; auto.
    + assert (Hhi : (192 + N_of_ascii a / 64 < 256)%N).
      { assert (N_of_ascii a / 64 < 4)%N
          by (apply N.Div0.div_lt_upper_bound; lia).
        lia. }
      assert (Hlo : (128 + N_of_ascii a mod 64 < 256)%N).
      { assert (N_of_ascii a mod 64 < 64)%N by (apply N.mod_lt; lia). lia. }
      intros Hc. apply (escape_chars _ _ _ Hhi) in Hc as [Hc|[Hc|Hc]]; auto.
      apply (escape_chars _ _ _ Hlo) in Hc as [Hc|[Hc|Hc]]; auto.
Qed.

Lemma encodeURIComponent_unreserved s :
  all_chars URI.unreserved s = true -> URI.encodeURIComponent s = s.
Proof.
  induction s as [|a s IH]; cbn [all_chars URI.encodeURIComponent];
    [reflexivity|].
  intros H. apply andb_true_iff in H as [Ha Hs]. now rewrite Ha, IH.
Qed.

(** X13. [getMyStats] asks for the agent with the user name escaped:
    after [username=] the URL has only unreserved characters (letters,
    digits and [-_.!~*'()]) and [%], so a user name cannot add a
    parameter or cut the query; a user name of unreserved characters is
    sent as it is. *)
Theorem getMyStats_escapes_username (s : state) :
  exists query,
    snd (getMyStats s) =
    after_request {| Net.input := API_BASE ++ "/agent?username=" ++ query;
                     Net.init := None |} s /\
    (forall c, In c (list_ascii_of_string query) ->
               c = "%"%char \/ URI.unreserved c = true) /\
    (all_chars URI.unreserved (username (this s)) = true ->
     query = username (this s)).
Proof.
  exists (URI.encodeURIComponent (username (this s))). split; [|split].
  - unfold getMyStats. step.
    destruct (Net.next _ _) as [response|e]; cbn; [|reflexivity].
    destruct (Net.ok response); cbn; [|reflexivity].
    destruct (Net.json response); reflexivity.
  - apply encodeURIComponent_chars.
  - apply encodeURIComponent_unreserved.
Qed.

End ClientExtras.

(** ** Platform client: the wallet it holds *)

Section ClientWallet.

Context `{libs : WalletLibs} `{num : JS.Number}.

Local Open Scope string_scope.

Ltac step :=
  unfold AIONClient.bind, AIONClient.ret, AIONClient.read, AIONClient.lift,
    AIONClient.throw, AIONClient.fetch, AIONClient.response_json,
    AIONClient.check_ok, AIONClient.set_claimCode, AIONClient.set_wallet; cbn.

(** The method changed at most the wallet, made no request, and on a
    throw changed nothing. *)
Definition wallet_only {A} (outcome : result A * AIONClient.state)
    (s : AIONClient.state) : Prop :=
  AIONClient.network (snd outcome) = AIONClient.network s /\
  AIONClient.username (AIONClient.this (snd outcome)) =
    AIONClient.username (AIONClient.this s) /\
  AIONClient.claimCode (AIONClient.this (snd outcome)) =
    AIONClient.claimCode (AIONClient.this s) /\
  (forall e, fst outcome = Throw e -> snd outcome = s).

(** X14. The three wallet methods of the client make no request and
    never touch the user name or the claim code; when one throws, the
    wallet held before is still held. When [generateWallet] or
    [importWallet] returns, the client holds the wallet that the wallet
    module made, and its address is the public key returned. *)
Theorem wallet_methods_are_local (s : AIONClient.state) :
  (forall random,
      wallet_only (AIONClient.generateWallet random s) s /\
      forall publicKey mnemonic s',
        AIONClient.generateWallet random s = (Ok (publicKey, mnemonic), s') ->
        exists w,
          generateWallet random = Ok w /\
          publicKey = Wallet.publicKey w /\
          mnemonic = Wallet.mnemonic w /\
          AIONClient.wallet (AIONClient.this s') = Some (AIONClient.AsWallet w) /\
          fst (AIONClient.walletAddress s') = Ok (JS.Str publicKey)) /\
  (forall mnemonic,
      wallet_only (AIONClient.importWallet mnemonic s) s /\
      forall publicKey s',
        AIONClient.importWallet mnemonic s = (Ok publicKey, s') ->
        exists w,
          importFromMnemonic mnemonic = Ok w /\
          publicKey = ImportedWallet.publicKey w /\
          AIONClient.wallet (AIONClient.this s') =
            Some (AIONClient.AsImportedWallet w) /\
          fst (AIONClient.walletAddress s') = Ok (JS.Str publicKey)) /\
  (forall address, wallet_only (AIONClient.setWalletAddress address s) s).
Proof.
  split; [|split].
  - intros random. unfold AIONClient.generateWallet. step.
    destruct (generateWallet random) as [w|e]; cbn.
    + split; [repeat split; discriminate|].
      intros publicKey mnemonic s' [= <- <- <-]. exists w. repeat split.
    + split; [repeat split|discriminate].
  - intros mnemonic. unfold AIONClient.importWallet. step.
    destruct (importFromMnemonic mnemonic) as [w|e]; cbn.
    + split; [repeat split; discriminate|].
      intros publicKey s' [= <- <-]. exists w. repeat split.
    + split; [repeat split|discriminate].
  - intros address. unfold AIONClient.setWalletAddress. step.
    destruct (validateAddress address) as [[]|e]; cbn;
      repeat split; discriminate.
Qed.

(** The request of a claim for a user, a post and maybe an address. *)
Definition claim_request (name postUrl : string) (address : option string)
  : Net.Request :=
  {| Net.input := AIONClient.API_BASE ++ "/agent";
     Net.init :=
       AIONClient.POST
         (JS.Obj ([("action", JS.Str "complete_claim");
                   ("username", JS.Str name);
                   ("post_url", JS.Str postUrl)] ++
                  match address with
                  | Some a => [("wallet_address", JS.Str a)]
                  | None => []
                  end)) |}.

Lemma claim_with_wallet postUrl (s : AIONClient.state) w :
  AIONClient.wallet (AIONClient.this s) = Some w ->
  String.eqb (AIONClient.held_publicKey w) "" = false ->
  AIONClient.network (snd (AIONClient.claim postUrl s)) =
  Net.record (claim_request (AIONClient.username (AIONClient.this s)) postUrl
                (Some (AIONClient.held_publicKey w)))
             (AIONClient.network s).
Proof.
  intros Hw Hne. unfold AIONClient.claim.
  rewrite completeClaim_run, post_json_request.
  unfold resolved_address, non_empty. now rewrite Hw, Hne.
Qed.

Lemma claim_without_wallet postUrl (s : AIONClient.state) :
  AIONClient.wallet (AIONClient.this s) = None ->
  AIONClient.network (snd (AIONClient.claim postUrl s)) =
  Net.record (claim_request (AIONClient.username (AIONClient.this s)) postUrl
                None)
             (AIONClient.network s).
Proof.
  intros Hw. unfold AIONClient.claim.
  rewrite completeClaim_run, post_json_request.
  unfold resolved_address. now rewrite Hw.
Qed.

(** X15. After [setWalletAddress] has accepted an address, [claim] and
    [submitBugReport] send that address as [wallet_address]. *)
Theorem stored_address_is_sent (address postUrl : string)
    (params : AIONClient.BugReport) (s : AIONClient.state) :
  validateAddress address = Ok true ->
  exists s',
    AIONClient.setWalletAddress address s = (Ok true, s') /\
    AIONClient.network (snd (AIONClient.claim postUrl s')) =
    Net.record
      (claim_request (AIONClient.username (AIONClient.this s)) postUrl
         (Some address))
      (AIONClient.network s) /\
    exists payload,
      AIONClient.network (snd (AIONClient.submitBugReport params s')) =
      Net.record {| Net.input := AIONClient.API_BASE ++ "/bug-bounty";
                    Net.init := AIONClient.POST (JS.Obj payload) |}
                 (AIONClient.network s) /\
      JS.lookup "wallet_address" payload = JS.Str address.
Proof.
  intros Hvalid. eexists. split; [|split].
  - unfold AIONClient.setWalletAddress. step. rewrite Hvalid. reflexivity.
  - erewrite claim_with_wallet; cycle 1;
      [reflexivity | apply valid_address_not_empty, Hvalid | reflexivity].
  - eexists. split.
    + unfold AIONClient.submitBugReport, AIONClient.walletAddress. step.
      destruct (Net.next _ _) as [response|e]; cbn; [|reflexivity].
      destruct (Net.ok response); cbn; [|reflexivity].
      destruct (Net.json response); reflexivity.
    + reflexivity.
Qed.

(** X16. [quickClaim] checks the address before it goes to the network:
    with an address that is not empty and not valid it throws the
    invalid-address error and no request is made. With a valid address
    its one request carries the address; with no address, or the empty
    string, its one request has no [wallet_address]. *)
Theorem quickClaim_validates_first (username postUrl : string) (net : Net.t) :
  (forall address,
      address <> "" ->
      validateAddress address = Ok false ->
      AIONClient.quickClaim username postUrl (Some address) net =
      (Throw (Error ("Invalid Solana address: " ++ address)),
       {| AIONClient.this := AIONClient.constructor username;
          AIONClient.network := net |})) /\
  (forall address,
      validateAddress address = Ok true ->
      AIONClient.network
        (snd (AIONClient.quickClaim username postUrl (Some address) net)) =
      Net.record (claim_request username postUrl (Some address)) net) /\
  (forall walletAddress_arg,
      walletAddress_arg = None \/ walletAddress_arg = Some "" ->
      AIONClient.network
        (snd (AIONClient.quickClaim username postUrl walletAddress_arg net)) =
      Net.record (claim_request username postUrl None) net).
Proof.
  split; [|split].
  - intros address Hne Hinvalid. unfold AIONClient.quickClaim.
    cbn [JS.ToBoolean]. apply String.eqb_neq in Hne. rewrite Hne. cbn [negb].
    unfold AIONClient.setWalletAddress. step. rewrite Hinvalid. reflexivity.
  - intros address Hvalid. unfold AIONClient.quickClaim.
    cbn [JS.ToBoolean]. rewrite (valid_address_not_empty address Hvalid).
    cbn [negb].
    unfold AIONClient.setWalletAddress, AIONClient.bind at 1 2 3,
      AIONClient.lift.
    rewrite Hvalid. cbn [negb].
    unfold AIONClient.bind at 1, AIONClient.set_wallet, AIONClient.ret.
    cbn beta iota.
    erewrite claim_with_wallet; cycle 1;
      [reflexivity | apply valid_address_not_empty, Hvalid | reflexivity].
  - intros walletAddress_arg [-> | ->]; unfold AIONClient.quickClaim;
      cbn [JS.ToBoolean String.eqb negb];
      unfold AIONClient.bind at 1, AIONClient.ret; cbn beta iota;
      rewrite claim_without_wallet by reflexivity; reflexivity.
Qed.

(** X17. The phrase that [generateWallet] of the client returns brings
    the same wallet address back: on any client, [importWallet] of that
    phrase, when bip39 accepts it, returns the public key that
    [generateWallet] returned and holds it as wallet address. *)
Theorem generated_phrase_restores_address (random : entropy)
    (s s1 s2 : AIONClient.state) (publicKey mnemonic : string) :
  AIONClient.generateWallet random s = (Ok (publicKey, mnemonic), s1) ->
  bip39_validateMnemonic mnemonic = true ->
  exists s3,
    AIONClient.importWallet mnemonic s2 = (Ok publicKey, s3) /\
    fst (AIONClient.walletAddress s3) = Ok (JS.Str publicKey) /\
    fst (AIONClient.walletAddress s1) = Ok (JS.Str publicKey).
Proof.
  intros Hg Hvalid. revert Hg. unfold AIONClient.generateWallet. step.
  destruct (generateWallet random) as [w|e] eqn:Hw; cbn; [|discriminate].
  intros [= <- <- <-].
  apply generateWallet_Ok in Hw as (keypair & Hk & _ & Hpk & Hsk).
  unfold AIONClient.importWallet. step.
  unfold importFromMnemonic. rewrite Hvalid. cbn [negb].
  unfold derived_keypair in Hk.
  destruct (derivePath _ _) as [derived|e]; [|discriminate].
  cbn [result_bind] in *. rewrite Hk. cbn. rewrite Hpk.
  eexists. repeat split.
Qed.

End ClientWallet.

(** ** The further properties at concrete inputs *)

Module Scenario.

(** A network on which every [fetch] fails. *)
Definition offline : Net.t (num := Sample.num) :=
  {| Net.respond := fun _ _ => Net.Rejected TypeError; Net.log := [] |}.

Definition agent_offline : AIONClient.state (num := Sample.num) :=
  {| AIONClient.this := AIONClient.constructor "agent";
     AIONClient.network := offline |}.

(** A client that holds the claim code [AION-7F3K]. *)
Definition claim_held : AIONClient.state (num := Sample.num) :=
  snd (AIONClient.startClaim
         (Sample.fresh 200 (Sample.claim_started "AION-7F3K"))).

(** Another agent, offline, that holds the same claim code. *)
Definition other_agent : AIONClient.state (num := Sample.num) :=
  {| AIONClient.this :=
       {| AIONClient.username := "other";
          AIONClient.wallet := None;
          AIONClient.claimCode := JS.Str "AION-7F3K" |};
     AIONClient.network := offline |}.

End Scenario.

Lemma sample_fromSeed_publicKey_32 :
  forall seed keypair,
    Keypair_fromSeed (WalletLibs := Sample.libs) seed = Ok keypair ->
    length (Keypair.publicKey keypair) = 32%nat.
Proof.
  intros seed keypair. cbn.
  destruct (Nat.eqb_spec (length seed) 32) as [E|]; [|discriminate].
  intros [= <-]. cbn. now rewrite length_rev.
Defined.

Lemma sample_fromSecretKey_publicKey_32 :
  forall secretKey keypair,
    Keypair_fromSecretKey (WalletLibs := Sample.libs) secretKey = Ok keypair ->
    length (Keypair.publicKey keypair) = 32%nat.
Proof.
  intros secretKey keypair. cbn -[skipn].
  destruct (Nat.eqb_spec (length secretKey) 64) as [E|]; [|discriminate].
  intros [= <-]. change (length (skipn 32 secretKey) = 32%nat).
  rewrite length_skipn, E. reflexivity.
Defined.

Lemma valid_address_is_encoded_key_witness :
  exists bytes,
    length bytes = 32%nat /\ Sample.system_program = Base58.encode bytes.
Proof.
  apply (proj1 (proj1 valid_address_is_encoded_key Sample.system_program)).
  vm_compute. reflexivity.
Defined.

Lemma importFromSecretKey_rejects_text_witness :
  importFromSecretKey (libs := Sample.libs) (Base58String "not-base58!!") =
    Throw (Error "Non-base58 character") /\
  validateAddress "not-base58!!" = Ok false.
Proof.
  apply (importFromSecretKey_rejects_text (libs := Sample.libs) "not-base58!!").
  exists "-"%char. split.
  - cbn. tauto.
  - intros H. apply Base58Facts.class_ALPHABET in H. discriminate H.
Defined.

Lemma returned_addresses_are_valid_witness :
  exists w,
    generateWallet (libs := Sample.libs) Sample.random = Ok w /\
    validateAddress (Wallet.publicKey w) = Ok true.
Proof.
  eexists. split.
  - vm_compute. reflexivity.
  - apply (proj1 (returned_addresses_are_valid (libs := Sample.libs)
                    sample_fromSeed_publicKey_32
                    sample_fromSecretKey_publicKey_32) Sample.random).
    vm_compute. reflexivity.
Defined.

Lemma network_failures_propagate_witness :
  exists request,
    AIONClient.getVerificationMessage Scenario.agent_offline =
    (Throw TypeError, after_request request Scenario.agent_offline).
Proof.
  destruct (proj1 (proj2 (proj2 (network_failures_propagate
                                   (num := Sample.num) Scenario.agent_offline)))
              eq_refl) as (request & Hrejected & _).
  exists request. apply Hrejected. reflexivity.
Defined.

Lemma listing_edge_cases_witness :
  fst (AIONClient.getBugBounties (Sample.fresh 200 JS.Null)) = Throw TypeError /\
  fst (AIONClient.getChallenges (Some "all")
         (Sample.fresh 200 (JS.Obj [("challenges", JS.Null)]))) = Ok (JS.Arr []).
Proof.
  split.
  - apply (proj1 (listing_edge_cases (num := Sample.num)
                    (Sample.fresh 200 JS.Null)
                    {| Net.status := 200; Net.json := Some JS.Null |}
                    JS.Null eq_refl eq_refl)).
    reflexivity.
  - apply (proj2 (listing_edge_cases (num := Sample.num)
                    (Sample.fresh 200 (JS.Obj [("challenges", JS.Null)]))
                    {| Net.status := 200;
                       Net.json := Some (JS.Obj [("challenges", JS.Null)]) |}
                    (JS.Obj [("challenges", JS.Null)]) eq_refl eq_refl) "all").
    reflexivity.
Defined.

Lemma payload_is_returned_as_is_witness :
  fst (AIONClient.completeClaim "https://moltbook.com/post/1" None
         (Sample.fresh 200 (JS.Obj [("success", JS.Bool false)]))) =
  Ok (JS.Obj [("success", JS.Bool false)]).
Proof.
  apply (proj1 (payload_is_returned_as_is (num := Sample.num)
                  (Sample.fresh 200 (JS.Obj [("success", JS.Bool false)]))
                  {| Net.status := 200;
                     Net.json := Some (JS.Obj [("success", JS.Bool false)]) |}
                  (JS.Obj [("success", JS.Bool false)])
                  (fun _ => eq_refl) eq_refl eq_refl)).
Defined.

Lemma getVerificationMessage_is_stable_witness :
  AIONClient.getVerificationMessage Scenario.claim_held =
  (Ok (verification_message "AION-7F3K"), Scenario.claim_held).
Proof.
  apply (getVerificationMessage_is_stable (num := Sample.num)
           (Sample.fresh 200 (Sample.claim_started "AION-7F3K"))
           Scenario.claim_held).
  - reflexivity.
  - reflexivity.
Defined.

Lemma message_determines_claim_code_witness :
  fst (AIONClient.getVerificationMessage Scenario.claim_held) =
    fst (AIONClient.getVerificationMessage Scenario.other_agent) /\
  AIONClient.claimCode (AIONClient.this Scenario.claim_held) =
    AIONClient.claimCode (AIONClient.this Scenario.other_agent).
Proof.
  split; [reflexivity|].
  change (JS.Str (num := Sample.num) "AION-7F3K" = JS.Str "AION-7F3K").
  apply (f_equal (JS.Str (num := Sample.num))).
  apply (message_determines_claim_code (num := Sample.num)
           Scenario.claim_held Scenario.other_agent "AION-7F3K" "AION-7F3K"
           (verification_message "AION-7F3K")).
  - reflexivity.
  - discriminate.
  - reflexivity.
  - discriminate.
  - reflexivity.
  - reflexivity.
Defined.

Lemma missing_claim_code_is_undefined_witness :
  exists s',
    AIONClient.getVerificationMessage
      (Sample.fresh 200 (JS.Obj [("message", JS.Str "welcome")])) =
    (Ok (verification_message "undefined"), s') /\
    AIONClient.claimCode (AIONClient.this s') = JS.Undefined /\
    requests_sent AIONClient.getVerificationMessage s' = 1%nat.
Proof.
  apply (missing_claim_code_is_undefined (num := Sample.num)
           (Sample.fresh 200 (JS.Obj [("message", JS.Str "welcome")]))
           {| Net.status := 200;
              Net.json := Some (JS.Obj [("message", JS.Str "welcome")]) |}
           [("message", JS.Str "welcome")] eq_refl eq_refl eq_refl eq_refl).
  cbn. intros [H|[]]. discriminate H.
Defined.

Lemma stored_address_is_sent_witness :
  AIONClient.network
    (snd (AIONClient.claim "https://moltbook.com/post/1"
            Sample.with_system_program)) =
  Net.record (claim_request "agent" "https://moltbook.com/post/1"
                (Some Sample.system_program))
             (Sample.platform 200 (JS.Obj [("success", JS.Bool true)])).
Proof.
  destruct (stored_address_is_sent (num := Sample.num)
              Sample.system_program "https://moltbook.com/post/1"
              {| AIONClient.category := "api";
                 AIONClient.title := "t";
                 AIONClient.description := "d";
                 AIONClient.stepsToReproduce := None;
                 AIONClient.expectedBehavior := None;
                 AIONClient.actualBehavior := None |}
              (Sample.fresh 200 (JS.Obj [("success", JS.Bool true)]))
              ltac:(vm_compute; reflexivity))
    as (s' & Hs & Hclaim & _).
  unfold Sample.with_system_program. rewrite Hs. exact Hclaim.
Defined.

Lemma quickClaim_validates_first_witness :
  AIONClient.quickClaim "agent" "https://moltbook.com/post/1"
    (Some "not-base58!!") Scenario.offline =
  (Throw (Error "Invalid Solana address: not-base58!!"),
   {| AIONClient.this := AIONClient.constructor "agent";
      AIONClient.network := Scenario.offline |}).
Proof.
  apply (proj1 (quickClaim_validates_first (num := Sample.num) "agent"
                  "https://moltbook.com/post/1" Scenario.offline)).
  - discriminate.
  - reflexivity.
Defined.

Lemma generated_phrase_restores_address_witness :
  exists s3,
    AIONClient.importWallet (libs := Sample.libs)
      "000102030405060708090a0b0c0d0e0ff0f1f2f3f4f5f6f7f8f9fafbfcfdfeff"
      Scenario.agent_offline =
    (Ok "4iUhHUX6ySMZBrfuwPRmjZV5rX7CF46DRWsoSdz8pd22", s3) /\
    fst (AIONClient.walletAddress s3) =
      Ok (JS.Str "4iUhHUX6ySMZBrfuwPRmjZV5rX7CF46DRWsoSdz8pd22") /\
    fst (AIONClient.walletAddress
           (snd (AIONClient.generateWallet (libs := Sample.libs) Sample.random
                   (Sample.fresh 200 JS.Null)))) =
      Ok (JS.Str "4iUhHUX6ySMZBrfuwPRmjZV5rX7CF46DRWsoSdz8pd22").
Proof.
  apply (generated_phrase_restores_address (libs := Sample.libs)
           (num := Sample.num) Sample.random (Sample.fresh 200 JS.Null)).
  - vm_compute. reflexivity.
  - vm_compute. reflexivity.
Defined.
